(** * AeroSentry (ESP32 + BME680 air monitoring station)

    Shallow embedding of [AeroSentry/AeroSentry.ino] and the properties of
    its scheduling, metric-derivation, history and forecast logic.

    Number model.
    - [unsigned long] (the [millis()] clock and the three timers) is a
      32-bit word: a [Z] in [0, 2^32) with the wrap-around written out.
    - [int] and [long] values (percentages, pixel coordinates, the
      arguments of Arduino's [map]) are [Z]; every value the sketch
      computes with them is far inside the 32-bit range.
    - [float] and [double] values are exact rationals ([Q]): comparisons,
      sums, products and quotients are the mathematical ones, and the
      binary rounding of IEEE arithmetic is outside this model.  Every
      concrete input used below is exactly representable in binary32, and
      what the examples conclude from it does not depend on rounding.
    - The pixels drawn on the TFT are not part of the state; the lines of
      the history chart are returned as data. *)

From Stdlib Require Import ZArith QArith Qround Lia Lqa String Ascii List.
From Stdlib Require Import DecimalString.
From stdpp Require Import base list.
Import ListNotations.

Open Scope Z_scope.

(** ** C and Arduino primitives *)

(** Conversion of a floating value to [int]/[long]: C discards the
    fractional part (truncation toward zero). *)
Definition Qtrunc (q : Q) : Z := Z.quot (Qnum q) (Zpos (Qden q)).

Definition Qltb (x y : Q) : bool := negb (Qle_bool y x).

(** 32-bit [unsigned long] arithmetic. *)
Definition U32 : Z := 2 ^ 32.
Definition wrap32 (z : Z) : Z := z mod U32.
Definition usub (a b : Z) : Z := wrap32 (a - b).

(** Arduino core [long map(long x, long in_min, long in_max, long out_min,
    long out_max)]:
    [(x - in_min) * (out_max - out_min) / (in_max - in_min) + out_min],
    with C's truncating integer division.  [map_run] is the divisor. *)
Definition map_run (in_min in_max : Z) : Z := in_max - in_min.

Definition arduino_map (x in_min in_max out_min out_max : Z) : Z :=
  Z.quot ((x - in_min) * (out_max - out_min)) (map_run in_min in_max) + out_min.

(** Arduino macro [constrain(amt, low, high)]. *)
Definition constrain (amt low high : Z) : Z :=
  if amt <? low then low else if high <? amt then high else amt.

(** ** Rolling history buffer ([tempHistory], [addGraphPoint], [drawGraph]) *)

Definition MAX_HISTORY : nat := 40.

(** [tempHistory[i]]; the array has [MAX_HISTORY] cells, so every index the
    sketch uses is in range. *)
Definition cell (h : list Q) (i : nat) : Q := nth i h 0%Q.

(** [for (int i = 0; i < n; i++) tempHistory[i] = tempHistory[i+1];]
    as the loop runs: one in-place store per index, in increasing order. *)
Definition shift_left (n : nat) (h : list Q) : list Q :=
  fold_left (fun a i => <[i := cell a (S i)]> a) (seq 0 n) h.

Definition addGraphPoint (val : Q) (tempHistory : list Q) : list Q :=
  <[(MAX_HISTORY - 1)%nat := val]> (shift_left (MAX_HISTORY - 1) tempHistory).

(** The buffer after pushing the values [vs] one after the other. *)
Definition pushes (vs : list Q) (tempHistory : list Q) : list Q :=
  fold_left (fun h v => addGraphPoint v h) vs tempHistory.

(** The buffer as [setup] leaves it: [tempHistory[i] = 0] for every cell. *)
Definition empty_history : list Q := repeat 0%Q MAX_HISTORY.

(** The scan of [drawGraph]:
<<
    float minVal = 100; float maxVal = -100;
    for(int i=0; i<MAX_HISTORY; i++) {
      if(tempHistory[i] == 0) continue;
      if(tempHistory[i] < minVal) minVal = tempHistory[i];
      if(tempHistory[i] > maxVal) maxVal = tempHistory[i];
    }
>> *)
Definition scan_step (acc : Q * Q) (x : Q) : Q * Q :=
  if Qeq_bool x 0 then acc
  else
    let minVal := if Qltb x (fst acc) then x else fst acc in
    let maxVal := if Qltb (snd acc) x then x else snd acc in
    (minVal, maxVal).

Definition scanMinMax (tempHistory : list Q) : Q * Q :=
  fold_left scan_step tempHistory (100%Q, (-100)%Q).

(** The widening or padding that follows the scan:
<<
    if ((maxVal - minVal) < 1.0) {
        float mid = (maxVal+minVal)/2; maxVal=mid+1; minVal=mid-1;
    } else { maxVal+=0.2; minVal-=0.2; }
>>
    The result is the pair [(minVal, maxVal)]. *)
Definition widen (mm : Q * Q) : Q * Q :=
  let minVal := fst mm in
  let maxVal := snd mm in
  if Qltb (maxVal - minVal) 1 then
    let mid := ((maxVal + minVal) / 2)%Q in ((mid - 1)%Q, (mid + 1)%Q)
  else ((minVal - 0.2)%Q, (maxVal + 0.2)%Q).

Definition graphRange (tempHistory : list Q) : Q * Q :=
  widen (scanMinMax tempHistory).

(** A chart segment: [tft.drawLine(x1, y1, x2, y2, C_GRAPH)]. *)
Record Line := mkLine { lx1 : Z; ly1 : Z; lx2 : Z; ly2 : Z }.

(** The value-to-pixel mapping of [drawGraph]:
    [constrain(map(v*10, minVal*10, maxVal*10, yBase, yBase - gHeight),
               yBase - gHeight, yBase)]
    with [yBase = 168] and [gHeight = 56]; the three float arguments are
    converted to [long] at the call. *)
Definition graphY (rng : Q * Q) (v : Q) : Z :=
  let yBase := 168 in
  let gHeight := 56 in
  constrain
    (arduino_map (Qtrunc (v * 10)) (Qtrunc (fst rng * 10)) (Qtrunc (snd rng * 10))
         yBase (yBase - gHeight))
    (yBase - gHeight) yBase.

(** The divisor of that [map] call. *)
Definition graph_divisor (rng : Q * Q) : Z :=
  map_run (Qtrunc (fst rng * 10)) (Qtrunc (snd rng * 10)).

(** [drawGraph]: the segments drawn, left to right. *)
Definition drawGraph (tempHistory : list Q) : list Line :=
  let xBase := 11 in
  let colWidth := Z.quot 218 (Z.of_nat MAX_HISTORY) in
  let rng := graphRange tempHistory in
  flat_map
    (fun i =>
       if Qeq_bool (cell tempHistory i) 0 || Qeq_bool (cell tempHistory (S i)) 0
       then []
       else
         [ mkLine (xBase + Z.of_nat i * colWidth)
                  (graphY rng (cell tempHistory i))
                  (xBase + (Z.of_nat i + 1) * colWidth)
                  (graphY rng (cell tempHistory (S i))) ])
    (seq 0 (MAX_HISTORY - 1)).

(** ** Metric derivation ([mapGasToPercent]) *)

(** <<
    float clean = 150.0; float bad = 5.0;
    if (gas_kohm > clean) gas_kohm = clean; if (gas_kohm < bad) gas_kohm = bad;
    return (int)((clean - gas_kohm) * (100.0) / (clean - bad));
>> *)
Definition mapGasToPercent (gas_kohm : Q) : Z :=
  let clean := 150%Q in
  let bad := 5%Q in
  let gas_kohm := if Qltb clean gas_kohm then clean else gas_kohm in
  let gas_kohm := if Qltb gas_kohm bad then bad else gas_kohm in
  Qtrunc ((clean - gas_kohm) * 100 / (clean - bad)).

(** ** Program state *)

(** What [bme.performReading()] leaves in the sensor object
    (Adafruit_BME680: temperature in Celsius and relative humidity as
    floats, pressure in pascals and gas resistance in ohms as [uint32_t]). *)
Record Reading := mkReading {
  temperature : Q;
  humidity : Q;
  pressure : Z;
  gas_resistance : Z
}.

(** The global variables of the sketch, and the levels of the output pins
    ([ledPins[0..7]] in order, then [LED_BUILTIN]). *)
Record State := mkState {
  lastClockUpdate : Z;
  lastUpdate : Z;
  lastGraphUpdate : Z;
  lastTemp : Q;
  lastHum : Q;
  lastPres : Q;
  lastGas : Q;
  pressureBaseline : Q;
  weatherStatus : string;
  tempHistory : list Q;
  ledLevels : list bool;
  builtinLed : bool
}.

Definition set_lastClockUpdate (v : Z) (s : State) : State :=
  mkState v (lastUpdate s) (lastGraphUpdate s) (lastTemp s) (lastHum s)
    (lastPres s) (lastGas s) (pressureBaseline s) (weatherStatus s)
    (tempHistory s) (ledLevels s) (builtinLed s).

Definition set_lastUpdate (v : Z) (s : State) : State :=
  mkState (lastClockUpdate s) v (lastGraphUpdate s) (lastTemp s) (lastHum s)
    (lastPres s) (lastGas s) (pressureBaseline s) (weatherStatus s)
    (tempHistory s) (ledLevels s) (builtinLed s).

Definition set_lastGraphUpdate (v : Z) (s : State) : State :=
  mkState (lastClockUpdate s) (lastUpdate s) v (lastTemp s) (lastHum s)
    (lastPres s) (lastGas s) (pressureBaseline s) (weatherStatus s)
    (tempHistory s) (ledLevels s) (builtinLed s).

Definition set_cache (t h p g : Q) (s : State) : State :=
  mkState (lastClockUpdate s) (lastUpdate s) (lastGraphUpdate s) t h p g
    (pressureBaseline s) (weatherStatus s)
    (tempHistory s) (ledLevels s) (builtinLed s).

Definition set_pressureBaseline (v : Q) (s : State) : State :=
  mkState (lastClockUpdate s) (lastUpdate s) (lastGraphUpdate s) (lastTemp s)
    (lastHum s) (lastPres s) (lastGas s) v (weatherStatus s)
    (tempHistory s) (ledLevels s) (builtinLed s).

Definition set_weatherStatus (v : string) (s : State) : State :=
  mkState (lastClockUpdate s) (lastUpdate s) (lastGraphUpdate s) (lastTemp s)
    (lastHum s) (lastPres s) (lastGas s) (pressureBaseline s) v
    (tempHistory s) (ledLevels s) (builtinLed s).

Definition set_tempHistory (h : list Q) (s : State) : State :=
  mkState (lastClockUpdate s) (lastUpdate s) (lastGraphUpdate s) (lastTemp s)
    (lastHum s) (lastPres s) (lastGas s) (pressureBaseline s) (weatherStatus s)
    h (ledLevels s) (builtinLed s).

Definition set_ledLevels (l : list bool) (s : State) : State :=
  mkState (lastClockUpdate s) (lastUpdate s) (lastGraphUpdate s) (lastTemp s)
    (lastHum s) (lastPres s) (lastGas s) (pressureBaseline s) (weatherStatus s)
    (tempHistory s) l (builtinLed s).

Definition set_builtinLed (b : bool) (s : State) : State :=
  mkState (lastClockUpdate s) (lastUpdate s) (lastGraphUpdate s) (lastTemp s)
    (lastHum s) (lastPres s) (lastGas s) (pressureBaseline s) (weatherStatus s)
    (tempHistory s) (ledLevels s) b.

Definition numLeds : nat := 8.

(** The globals as initialised, with the chart reset done by [setup]. *)
Definition boot : State :=
  mkState 0 0 0 0%Q 0%Q 0%Q 0%Q 0%Q "Analysis..."%string empty_history
    (repeat false numLeds) false.

(** ** Forecast ([updateForecast]) *)

(** <<
    if (pressureBaseline == 0) pressureBaseline = p;
    float diff = p - pressureBaseline;
    pressureBaseline = (pressureBaseline * 0.95) + (p * 0.05);
    if (diff > 0.2)       weatherStatus = "Growing (Sun)";
    else if (diff < -0.2) weatherStatus = "Falling (Rain)";
    else                  weatherStatus = "Stable";
>>
    (the icon drawn next to the label is not modelled). *)
Definition updateForecast (p : Q) (s : State) : State :=
  let s :=
    if Qeq_bool (pressureBaseline s) 0 then set_pressureBaseline p s else s in
  let diff := (p - pressureBaseline s)%Q in
  let s :=
    set_pressureBaseline ((pressureBaseline s * 0.95) + (p * 0.05))%Q s in
  if Qltb 0.2 diff then set_weatherStatus "Growing (Sun)" s
  else if Qltb diff (-0.2) then set_weatherStatus "Falling (Rain)" s
  else set_weatherStatus "Stable" s.

(** ** Web page ([handleRoot]) *)

(** Arduino's [String(float value, unsigned int decimalPlaces)] belongs to
    the core library, not to the sketch: it is a parameter [fmt] of the
    model.  [String(int)] is the decimal numeral. *)
Definition String_int (z : Z) : string := NilZero.string_of_int (Z.to_int z).

Section Page.
Variable fmt : Q -> nat -> string.
Local Open Scope string_scope.

(** The text passed to [server.send(200, "text/html", html)]. *)
Definition handleRoot (s : State) : string :=
  let html := "<!DOCTYPE html><html><head><meta charset='utf-8'>" in
  let html := html ++ "<meta name='viewport' content='width=device-width, initial-scale=1'>" in
  let html := html ++ "<meta http-equiv='refresh' content='10'>" in
  let html := html ++ "<title>AeroSentry</title>" in
  let html := html ++ "<style>body{font-family:sans-serif; text-align:center; background:#121212; color:#fff; margin:0; padding:20px;}" in
  let html := html ++ ".box{background:#1e1e1e; margin:10px auto; padding:20px; max-width:300px; border-radius:12px; border:1px solid #333;}" in
  let html := html ++ "h1{color:#ff9800; margin-bottom:5px;} h2{font-size:3rem; margin:10px 0; color:#00e5ff;}" in
  let html := html ++ ".lbl{color:#888; font-size:0.9rem;} .stat{font-weight:bold; color:#76ff03;}</style></head>" in
  let html := html ++ "<body><h1>AERO SENTRY</h1><p class='lbl'>Status Live</p>" in
  let html := html ++ ("<div class='box'><div class='lbl'>TEMPERATURE</div><h2>" ++ fmt (lastTemp s) 1 ++ "&deg;C</h2></div>") in
  let html := html ++ ("<div class='box'><div class='lbl'>HUMIDITY</div><h2>" ++ fmt (lastHum s) 0 ++ "%</h2></div>") in
  let html := html ++ ("<div class='box'><div class='lbl'>PRESSURE</div><h2>" ++ fmt (lastPres s) 0 ++ " hPa</h2><p>" ++ weatherStatus s ++ "</p></div>") in
  let qColor := if (60 <? mapGasToPercent (lastGas s))%Z then "#ff3d00" else "#76ff03" in
  let html := html ++ ("<div class='box' style='border-color:" ++ qColor ++ "'><div class='lbl'>INDOOR AIR QUALITY (IAQ)</div>") in
  let html := html ++ ("<h2 style='color:" ++ qColor ++ "'>" ++ String_int (mapGasToPercent (lastGas s)) ++ "%</h2></div>") in
  let html := html ++ "</body></html>" in
  html.
End Page.

(** ** The control loop ([loop]) *)

(** The three timed blocks of [loop]. *)
Inductive Task := ClockTask | SampleTask | ChartTask.

(** What one iteration does to the outside, in order.  [Fire t] marks the
    entry into the body of block [t] (for [ClockTask], the call of
    [updateClock()]); the other events are the calls of the same name. *)
Inductive Event :=
| Fire (t : Task)
| PerformReading (r : option Reading)
| UpdateValues (t h p g : Q)
| DrawGraph (lines : list Line)
| Send (html : string).

(** What the outside supplies to one iteration: the value of the k-th call
    of [millis()], the outcome of [bme.performReading()] should it be
    called ([None]: the call returns false), and whether a request for
    the root page is waiting in [server.handleClient()]. *)
Record Env := mkEnv {
  clock : nat -> Z;
  reading : option Reading;
  request : bool
}.

Record Run := mkRun { state : State; reads : nat; trace : list Event }.

(** A small state monad over [Run]. *)
Definition M (A : Type) : Type := Run -> A * Run.

Definition ret {A} (a : A) : M A := fun r => (a, r).

Definition bind {A B} (c : M A) (k : A -> M B) : M B :=
  fun r => let (a, r') := c r in k a r'.

Notation "x <- c ;; k" := (bind c (fun x => k))
  (at level 100, c at next level, right associativity).
Notation "c ;; k" := (bind c (fun _ => k))
  (at level 100, right associativity).

Definition get : M State := fun r => (state r, r).

Definition modify (f : State -> State) : M unit :=
  fun r => (tt, mkRun (f (state r)) (reads r) (trace r)).

Definition emit (e : Event) : M unit :=
  fun r => (tt, mkRun (state r) (reads r) (trace r ++ [e])).

Definition GRAPH_INTERVAL : Z := 300000.

Definition period (t : Task) : Z :=
  match t with
  | ClockTask => 1000
  | SampleTask => 3000
  | ChartTask => GRAPH_INTERVAL
  end.

Definition lastFire (t : Task) (s : State) : Z :=
  match t with
  | ClockTask => lastClockUpdate s
  | SampleTask => lastUpdate s
  | ChartTask => lastGraphUpdate s
  end.

Section Loop.
Variable fmt : Q -> nat -> string.
Variable env : Env.

(** [millis()]: the next clock value, as an [unsigned long]. *)
Definition millis : M Z :=
  fun r => (wrap32 (clock env (reads r)),
            mkRun (state r) (S (reads r)) (trace r)).

(** [server.handleClient()]: serves the root page if it is asked for. *)
Definition handleClient : M unit :=
  if request env then s <- get ;; emit (Send (handleRoot fmt s)) else ret tt.

(** <<
    if(percent < 0) percent = 0; if(percent > 100) percent = 100;
    int ledsOn = map(percent, 0, 100, 0, numLeds + 1);
    if(percent > 90 && (millis()/200)%2==0) {
       for(int i=0; i<numLeds; i++) digitalWrite(ledPins[i], LOW); return;
    }
    for(int i=0; i<numLeds; i++) digitalWrite(ledPins[i], (i < ledsOn) ? HIGH : LOW);
>> *)
Definition updateLedBar (percent : Z) : M unit :=
  let percent := if percent <? 0 then 0 else percent in
  let percent := if 100 <? percent then 100 else percent in
  let ledsOn := arduino_map percent 0 100 0 (Z.of_nat numLeds + 1) in
  blink <- (if 90 <? percent
            then now <- millis ;; ret ((now / 200) mod 2 =? 0)
            else ret false) ;;
  if blink : bool
  then modify (set_ledLevels (List.map (fun _ => false) (seq 0 numLeds)))
  else modify (set_ledLevels
                 (List.map (fun i => Z.of_nat i <? ledsOn) (seq 0 numLeds))).

(** [digitalWrite(LED_BUILTIN, ((millis() % 2000) < 100) ? HIGH : LOW);] *)
Definition runHeartbeat : M unit :=
  now <- millis ;; modify (set_builtinLed (now mod 2000 <? 100)).

(** The body of the sampling block once [bme.performReading()] has
    returned true with the values [r]. *)
Definition sample (r : Reading) : M unit :=
  modify (set_cache (temperature r) (humidity r)
                    (inject_Z (pressure r) / 100)%Q
                    (inject_Z (gas_resistance r) / 1000)%Q) ;;
  s <- get ;;
  emit (UpdateValues (lastTemp s) (lastHum s) (lastPres s) (lastGas s)) ;;
  let iaq := mapGasToPercent (lastGas s) in
  updateLedBar iaq ;;
  modify (updateForecast (lastPres s)).

(** <<
    if (millis() - lastClockUpdate > 1000) {
      lastClockUpdate = millis();
      updateClock();
    }
>> *)
Definition clockBlock : M unit :=
  now <- millis ;;
  s <- get ;;
  if 1000 <? usub now (lastClockUpdate s) then
    t <- millis ;;
    modify (set_lastClockUpdate t) ;;
    emit (Fire ClockTask)
  else ret tt.

(** <<
    if (millis() - lastUpdate > 3000) {
      lastUpdate = millis();
      if (bme.performReading()) { ... }
    }
>> *)
Definition sampleBlock : M unit :=
  now <- millis ;;
  s <- get ;;
  if 3000 <? usub now (lastUpdate s) then
    t <- millis ;;
    modify (set_lastUpdate t) ;;
    emit (Fire SampleTask) ;;
    emit (PerformReading (reading env)) ;;
    match reading env with
    | Some r => sample r
    | None => ret tt
    end
  else ret tt.

(** <<
    if (millis() - lastGraphUpdate > GRAPH_INTERVAL) {
      lastGraphUpdate = millis();
      if (lastTemp != 0) {
        addGraphPoint(lastTemp);
        drawGraph();
      }
    }
>> *)
Definition chartBlock : M unit :=
  now <- millis ;;
  s <- get ;;
  if GRAPH_INTERVAL <? usub now (lastGraphUpdate s) then
    t <- millis ;;
    modify (set_lastGraphUpdate t) ;;
    emit (Fire ChartTask) ;;
    s <- get ;;
    if negb (Qeq_bool (lastTemp s) 0) then
      modify (fun s => set_tempHistory
                         (addGraphPoint (lastTemp s) (tempHistory s)) s) ;;
      s <- get ;;
      emit (DrawGraph (drawGraph (tempHistory s)))
    else ret tt
  else ret tt.

Definition loop : M unit :=
  handleClient ;;
  clockBlock ;;
  sampleBlock ;;
  chartBlock ;;
  runHeartbeat.
End Loop.

(** One iteration of [loop] from state [s]: the state it leaves and the
    events it produced. *)
Definition iterate (fmt : Q -> nat -> string) (env : Env) (s : State)
  : State * list Event :=
  let r := snd (loop fmt env (mkRun s 0 [])) in (state r, trace r).

(** * Vocabulary of the properties *)

(** ** History and chart range *)

(** A value is a sentinel when it compares equal to zero. *)
Definition sentinel (x : Q) : Prop := (x == 0)%Q.

(** [m] is the least (greatest) of the non-sentinel entries of [h]. *)
Definition true_min (m : Q) (h : list Q) : Prop :=
  (exists x, In x h /\ ~ sentinel x /\ (x == m)%Q) /\
  (forall x, In x h -> ~ sentinel x -> (m <= x)%Q).

Definition true_max (m : Q) (h : list Q) : Prop :=
  (exists x, In x h /\ ~ sentinel x /\ (x == m)%Q) /\
  (forall x, In x h -> ~ sentinel x -> (x <= m)%Q).

(** A buffer whose only reading is 150 degrees. *)
Definition hot_history : list Q := repeat 0%Q 39 ++ [150%Q].

(** A buffer holding two readings, 21.5 then 22 degrees. *)
Definition warm_history : list Q := repeat 0%Q 38 ++ [21.5%Q; 22%Q].

(** ** Air-quality percentage *)

(** [clamp(g, bad, clean)]. *)
Definition clamp (g bad clean : Q) : Q :=
  if Qltb g bad then bad else if Qltb clean g then clean else g.

(** The inverted linear scale before conversion to [int]. *)
Definition gasScale (g : Q) : Q := ((150 - clamp g 5 150) * 100 / (150 - 5))%Q.



(** ** Forecast *)

(** The three labels [updateForecast] writes to [weatherStatus]. *)
Definition Rising : string := "Growing (Sun)".
Definition Falling : string := "Falling (Rain)".
Definition Stable : string := "Stable".

(** The baseline the comparison uses: the stored one, or the current
    pressure when nothing has been stored yet. *)
Definition comparison_baseline (p : Q) (s : State) : Q :=
  if Qeq_bool (pressureBaseline s) 0 then p else pressureBaseline s.

(** ** Indicator *)

(** The number of lit segments. *)
Definition lit (leds : list bool) : nat := length (List.filter (fun b => b) leds).

(** The bar with its first [k] segments lit. *)
Definition first_on (k : nat) : list bool :=
  repeat true k ++ repeat false (numLeds - k).

(** ** Web page *)


(** ** Control loop *)

Definition task_eqb (a b : Task) : bool :=
  match a, b with
  | ClockTask, ClockTask | SampleTask, SampleTask | ChartTask, ChartTask => true
  | _, _ => false
  end.

(** The number of times block [t] ran in a trace. *)
Definition fires (t : Task) (tr : list Event) : nat :=
  length (List.filter (fun e => match e with Fire t' => task_eqb t t' | _ => false end) tr).

(** A clock that does not advance during the iteration. *)
Definition frozen (now : Z) : nat -> Z := fun _ => now.

(** Views of the state: the three timers, and the cached readings with the
    forecast. *)
Definition timers (s : State) : Z * Z * Z :=
  (lastClockUpdate s, lastUpdate s, lastGraphUpdate s).

Definition cache (s : State) : Q * Q * Q * Q :=
  (lastTemp s, lastHum s, lastPres s, lastGas s).


(** A state with a reading in the cache: [boot] after one iteration at
    3001 ms in which the sensor delivered 21.5 degrees. *)
Definition first_reading : Reading := mkReading 21.5%Q 45%Q 101325 50000.

Definition after_first_reading : State :=
  fst (iterate (fun _ _ => EmptyString)
         (mkEnv (frozen 3001) (Some first_reading) false) boot).

(** One iteration, block by block. *)
Section Runs.
Variable fmt : Q -> nat -> string.
Variable env : Env.

(** The clock value a block tests, and whether task [t] is due on it. *)
Definition tested (r : Run) : Z := wrap32 (clock env (reads r)).
Definition stamped (r : Run) : Z := wrap32 (clock env (S (reads r))).
Definition due (t : Task) (r : Run) : bool :=
  period t <? usub (tested r) (lastFire t (state r)).

(** The three timed blocks by task. *)
Definition block (t : Task) : M unit :=
  match t with
  | ClockTask => clockBlock env
  | SampleTask => sampleBlock env
  | ChartTask => chartBlock env
  end.

(** The five runs of one iteration. *)
Definition run0 (s : State) : Run := mkRun s 0 [].
Definition run1 (s : State) : Run := snd (handleClient fmt env (run0 s)).
Definition run2 (s : State) : Run := snd (block ClockTask (run1 s)).
Definition run3 (s : State) : Run := snd (block SampleTask (run2 s)).
Definition run4 (s : State) : Run := snd (block ChartTask (run3 s)).
Definition run5 (s : State) : Run := snd (runHeartbeat env (run4 s)).

(** The run in which the block of task [t] starts. *)
Definition run_before (t : Task) (s : State) : Run :=
  match t with
  | ClockTask => run1 s
  | SampleTask => run2 s
  | ChartTask => run3 s
  end.

End Runs.

(** * Further parts of the sketch *)

(** ** Start-up ([setup]) *)

(** <<
    int retry = 0;
    while (WiFi.status() != WL_CONNECTED && retry < 20) {
      delay(500); retry++;
    }
>>
    [connected k] is the answer of the k-th call of [WiFi.status()],
    counted from 0: the loop calls it once per test, so the test made
    with [retry = k] sees [connected k].  [left] is the number of retries
    still allowed, [20 - retry].  The result is the final [retry]. *)
Fixpoint wifiWait (connected : nat -> bool) (left retry : nat) : nat :=
  if connected retry then retry
  else
    match left with
    | O => retry
    | S left' => wifiWait connected left' (S retry)
    end.

(** What [setup] has done when it returns: the number of 500 ms delays
    spent waiting for the network, whether the web server was started
    ([server.on("/", handleRoot); server.begin();]), whether the address
    was drawn on the screen, and the globals it leaves. *)
Record Started := mkStarted {
  wifiRetries : nat;
  serverStarted : bool;
  ipShown : bool;
  globals : State
}.

(** [setup]: the wait for the network, the test that starts the server,
    the sensor check and the chart reset.  [None] is the sketch stuck in
    [while(1);] after [bme.begin(0x76)] failed. *)
Definition setup (connected : nat -> bool) (bmeFound : bool) : option Started :=
  let retry := wifiWait connected 20 0 in
  let online := connected (S retry) in
  if negb bmeFound then None
  else Some (mkStarted retry online (connected (S (S retry))) boot).

(** ** The air-quality bar of the display ([updateValues]) *)

Inductive Color := TFT_GREEN | TFT_ORANGE | TFT_RED | C_BG.

(** [tft.fillRect(x, y, w, h, color)]. *)
Record Rect := mkRect { rx : Z; ry : Z; rw : Z; rh : Z; rcolor : Color }.

(** <<
    int barWidth = map(mapGasToPercent(g), 0, 100, 0, 196);
    uint16_t color = TFT_GREEN;
    String status = "GOOD";
    if(barWidth > 60) { color = TFT_ORANGE; status = "MODERATE"; }
    if(barWidth > 120) { color = TFT_RED; status = "BAD"; }
    tft.fillRect(22, 267, barWidth, 11, color);
    tft.fillRect(22 + barWidth, 267, 196 - barWidth, 11, C_BG);
    tft.drawCentreString(status, 120, 285, 2);
>>
    The result is the width, the two rectangles and the text. *)
Definition iaqBar (g : Q) : Z * (Rect * Rect) * string :=
  let barWidth := arduino_map (mapGasToPercent g) 0 100 0 196 in
  let color := TFT_GREEN in
  let status := "GOOD"%string in
  let color := if 60 <? barWidth then TFT_ORANGE else color in
  let status := if 60 <? barWidth then "MODERATE"%string else status in
  let color := if 120 <? barWidth then TFT_RED else color in
  let status := if 120 <? barWidth then "BAD"%string else status in
  (barWidth,
   (mkRect 22 267 barWidth 11 color,
    mkRect (22 + barWidth) 267 (196 - barWidth) 11 C_BG),
   status).

(** ** Vocabulary *)

(** The colour [handleRoot] gives the air-quality box:
    [(mapGasToPercent(lastGas) > 60) ? "#ff3d00" : "#76ff03"]. *)
Definition qColor (g : Q) : string :=
  if 60 <? mapGasToPercent g then "#ff3d00"%string else "#76ff03"%string.

(** The states the sketch can reach: [boot], and the state after one more
    iteration of [loop], whatever the clock, the sensor and the network
    do. *)
Inductive reachable (fmt : Q -> nat -> string) : State -> Prop :=
| reach_boot : reachable fmt boot
| reach_iter (env : Env) (s : State) :
    reachable fmt s -> reachable fmt (fst (iterate fmt env s)).

(** The pages sent in a trace, in order. *)
Definition pages (tr : list Event) : list string :=
  flat_map (fun e => match e with Send html => [html] | _ => [] end) tr.

(** The pixels [drawGraph] clears before it draws
    ([tft.fillRect(11, 111, 218, 58, C_BG)]): the interior of the frame
    that [drawStaticInterface] draws with
    [tft.drawRect(10, 110, 220, 60, C_GRID)]. *)
Definition cleared (x y : Z) : Prop :=
  11 <= x < 11 + 218 /\ 111 <= y < 111 + 58.

(** A segment with both end points, hence all its pixels, in that area. *)
Definition in_frame (l : Line) : Prop :=
  cleared (lx1 l) (ly1 l) /\ cleared (lx2 l) (ly2 l).

(** The segment of the chart between the buffer cells [i] and [i + 1]:
    columns are 5 pixels wide ([218 / MAX_HISTORY]) and start at x = 11. *)
Definition segment (h : list Q) (i : nat) : Line :=
  mkLine (11 + Z.of_nat i * 5) (graphY (graphRange h) (cell h i))
         (11 + (Z.of_nat i + 1) * 5) (graphY (graphRange h) (cell h (S i))).

(** A buffer that holds the readings [vs], oldest first, at its right
    end, and the initial 0 in every cell before them. *)
Definition holds (h vs : list Q) : Prop :=
  h = repeat 0%Q (MAX_HISTORY - length vs) ++ vs /\
  (length vs <= MAX_HISTORY)%nat /\
  Forall (fun v => ~ sentinel v) vs.

(** The factor by which [n] samples shrink the distance between the
    baseline and a constant pressure: [0.95 ^ n]. *)
Fixpoint decay (n : nat) : Q :=
  match n with
  | O => 1
  | S n' => 0.95 * decay n'
  end.



(** * Properties *)

(** ** History buffer *)

Lemma cell_lookup (h : list Q) (i : nat) (x : Q) :
  h !! i = Some x -> cell h i = x.
Proof. intros E. unfold cell. rewrite nth_lookup, E. reflexivity. Qed.

(** The shifting loop, cell by cell: the first [n] cells receive their
    right neighbour, the others are untouched. *)
Lemma shift_left_spec (n : nat) (h : list Q) :
  (S n <= length h)%nat ->
  length (shift_left n h) = length h /\
  forall j, shift_left n h !! j = if (j <? n)%nat then h !! S j else h !! j.
Proof.
  unfold shift_left. induction n as [|n IH]; intros Hn.
  - split; [reflexivity | intros j; reflexivity].
  - rewrite seq_S, fold_left_app. simpl.
    destruct IH as [IHlen IHget]; [lia |].
    set (a := fold_left _ (seq 0 n) h) in *.
    split; [rewrite length_insert; exact IHlen |].
    intros j. destruct (decide (j = n)) as [->|Hne].
    + rewrite list_lookup_insert_eq by lia.
      destruct (lookup_lt_is_Some_2 h (S n)) as [x Hx]; [lia |].
      rewrite (cell_lookup a (S n) x).
      * rewrite Hx. destruct (Nat.ltb_spec n (S n)); [reflexivity | lia].
      * rewrite IHget. destruct (Nat.ltb_spec (S n) n); [lia | exact Hx].
    + rewrite list_lookup_insert_ne by congruence. rewrite IHget.
      destruct (Nat.ltb_spec j n), (Nat.ltb_spec j (S n)); try reflexivity; lia.
Qed.

Lemma addGraphPoint_length (v : Q) (h : list Q) :
  length h = MAX_HISTORY -> length (addGraphPoint v h) = MAX_HISTORY.
Proof.
  intros Hlen. unfold addGraphPoint. rewrite length_insert.
  destruct (shift_left_spec (MAX_HISTORY - 1) h) as [-> _]; [|exact Hlen].
  rewrite Hlen. reflexivity.
Qed.

Lemma addGraphPoint_lookup (v : Q) (h : list Q) (i : nat) :
  length h = MAX_HISTORY ->
  addGraphPoint v h !! i =
    if (i <? MAX_HISTORY - 1)%nat then h !! S i
    else if (i =? MAX_HISTORY - 1)%nat then Some v else None.
Proof.
  intros Hlen. unfold addGraphPoint.
  destruct (shift_left_spec (MAX_HISTORY - 1) h) as [Hl Hg];
    [rewrite Hlen; reflexivity |].
  destruct (Nat.ltb_spec i (MAX_HISTORY - 1)) as [Hlt|Hge].
  - rewrite list_lookup_insert_ne by lia. rewrite Hg.
    destruct (Nat.ltb_spec i (MAX_HISTORY - 1)); [reflexivity | lia].
  - destruct (Nat.eqb_spec i (MAX_HISTORY - 1)) as [->|Hne].
    + apply list_lookup_insert_eq. rewrite Hl, Hlen. unfold MAX_HISTORY. lia.
    + apply lookup_ge_None_2. rewrite length_insert, Hl, Hlen. lia.
Qed.

(** A push is "drop the head, append at the tail". *)
Lemma addGraphPoint_shift (v : Q) (h : list Q) :
  length h = MAX_HISTORY -> addGraphPoint v h = drop 1 (h ++ [v]).
Proof.
  intros Hlen. apply list_eq. intros i.
  rewrite addGraphPoint_lookup by exact Hlen. rewrite lookup_drop.
  destruct (Nat.ltb_spec i (MAX_HISTORY - 1)) as [Hlt|Hge].
  - rewrite lookup_app_l; [reflexivity | rewrite Hlen; lia].
  - destruct (Nat.eqb_spec i (MAX_HISTORY - 1)) as [->|Hne].
    + rewrite lookup_app_r by (rewrite Hlen; unfold MAX_HISTORY; lia).
      rewrite Hlen. reflexivity.
    + symmetry. apply lookup_ge_None_2. rewrite length_app, Hlen.
      unfold MAX_HISTORY in *. simpl. lia.
Qed.

Lemma fold_left_step {A B} (f : A -> B -> A) (x : B) (l : list B) (a : A) :
  fold_left f (x :: l) a = fold_left f l (f a x).
Proof. reflexivity. Qed.

Lemma pushes_window (vs : list Q) (h : list Q) :
  length h = MAX_HISTORY -> pushes vs h = drop (length vs) (h ++ vs).
Proof.
  revert h. induction vs as [|v vs IH]; intros h Hlen.
  - unfold pushes. cbn [fold_left length drop]. rewrite app_nil_r. reflexivity.
  - unfold pushes. rewrite fold_left_step. fold (pushes vs (addGraphPoint v h)).
    rewrite IH by (apply addGraphPoint_length; exact Hlen).
    rewrite addGraphPoint_shift by exact Hlen.
    rewrite <- drop_app_le by (rewrite length_app; cbn [length]; lia).
    rewrite drop_drop, <- app_assoc. cbn [app length].
    replace (1 + length vs)%nat with (S (length vs)) by lia. reflexivity.
Qed.

(** C5: a push moves every element one position toward the head
    ([result[i] = old[i+1]] for [0 <= i < N-1]), drops the old index 0,
    writes the pushed value at index [N-1], and the buffer still has
    exactly [N = 40] entries after any number of pushes; the buffer then
    holds the last [N] values of the old contents followed by the pushed
    ones, in insertion order (oldest first, newest last). *)
Theorem push_shifts_and_keeps_length (h : list Q) (v : Q) :
  length h = MAX_HISTORY ->
  MAX_HISTORY = 40%nat /\
  (forall i, (i < MAX_HISTORY - 1)%nat -> addGraphPoint v h !! i = h !! S i) /\
  addGraphPoint v h !! (MAX_HISTORY - 1)%nat = Some v /\
  length (addGraphPoint v h) = MAX_HISTORY /\
  (forall vs, length (pushes vs h) = MAX_HISTORY) /\
  (forall vs, pushes vs h = drop (length vs) (h ++ vs)).
Proof.
  intros Hlen. split; [reflexivity |]. split; [|split; [|split; [|split]]].
  - intros i Hi. rewrite addGraphPoint_lookup by exact Hlen.
    destruct (Nat.ltb_spec i (MAX_HISTORY - 1)); [reflexivity | lia].
  - rewrite addGraphPoint_lookup by exact Hlen. reflexivity.
  - apply addGraphPoint_length, Hlen.
  - intros vs. rewrite pushes_window by exact Hlen.
    rewrite length_drop, length_app. lia.
  - intros vs. apply pushes_window, Hlen.
Qed.

Lemma push_shifts_and_keeps_length_witness :
  length empty_history = MAX_HISTORY /\
  addGraphPoint 21.5%Q empty_history !! (MAX_HISTORY - 1)%nat = Some 21.5%Q.
Proof.
  split; [reflexivity |].
  apply (push_shifts_and_keeps_length empty_history 21.5%Q). reflexivity.
Defined.

(** ** Comparisons and truncation on [Q] *)

Lemma Qltb_lt (x y : Q) : Qltb x y = true <-> (x < y)%Q.
Proof.
  unfold Qltb. rewrite negb_true_iff. split.
  - intros E. apply Qnot_le_lt. intros H. apply Qle_bool_iff in H. congruence.
  - intros H. destruct (Qle_bool y x) eqn:E; [|reflexivity].
    apply Qle_bool_iff in E. lra.
Qed.

Lemma Qltb_ge (x y : Q) : Qltb x y = false <-> (y <= x)%Q.
Proof.
  unfold Qltb. rewrite negb_false_iff. apply Qle_bool_iff.
Qed.

Lemma Qeqb_neq (x y : Q) : Qeq_bool x y = false <-> ~ (x == y)%Q.
Proof.
  split.
  - intros E H. apply Qeq_bool_iff in H. congruence.
  - intros H. destruct (Qeq_bool x y) eqn:E; [|reflexivity].
    apply Qeq_bool_iff in E. contradiction.
Qed.

(** Case analysis on the outcome of a float comparison. *)
Ltac cmp_cases :=
  repeat match goal with
  | |- context [Qltb ?a ?b] =>
      let E := fresh "E" in
      destruct (Qltb a b) eqn:E;
      [apply Qltb_lt in E | apply Qltb_ge in E]
  | |- context [Qeq_bool ?a ?b] =>
      let E := fresh "E" in
      destruct (Qeq_bool a b) eqn:E;
      [apply Qeq_bool_iff in E | apply Qeqb_neq in E]
  end.

(** Truncation stays within one unit of its argument. *)
Lemma Qtrunc_bounds (q : Q) :
  (q - 1 < inject_Z (Qtrunc q) /\ inject_Z (Qtrunc q) < q + 1)%Q.
Proof.
  destruct q as [a b]. unfold Qtrunc, Qlt, Qminus, Qplus, Qopp, inject_Z.
  cbn [Qnum Qden].
  pose proof (Z.quot_rem' a (Zpos b)) as Hqr.
  pose proof (Z.rem_bound_abs a (Zpos b) ltac:(lia)) as Hr.
  rewrite !Pos2Z.inj_mul. nia.
Qed.

(** Truncation does not depend on the fraction that represents a value. *)
Lemma Qtrunc_comp (a b : Q) : (a == b)%Q -> Qtrunc a = Qtrunc b.
Proof.
  destruct a as [na da], b as [nb db]. unfold Qeq, Qtrunc. cbn [Qnum Qden].
  intros E.
  rewrite <- (Z.quot_mul_cancel_r na (Zpos da) (Zpos db)) by lia.
  rewrite <- (Z.quot_mul_cancel_r nb (Zpos db) (Zpos da)) by lia.
  rewrite E. f_equal. lia.
Qed.

(** On non-negative values truncation is the floor. *)
Lemma Qtrunc_floor (q : Q) : (0 <= q)%Q -> Qtrunc q = Qfloor q.
Proof.
  destruct q as [a b]. unfold Qle, Qtrunc, Qfloor. cbn [Qnum Qden].
  intros H. apply Z.quot_div_nonneg; lia.
Qed.

(** ** Chart range *)

(** The scan from any pair of starting values: the results bound the
    starting values and every non-sentinel entry, and each is either its
    starting value or one of the non-sentinel entries. *)
Lemma scan_fold (l : list Q) (acc : Q * Q) :
  let r := fold_left scan_step l acc in
  ((fst r <= fst acc)%Q /\ (snd acc <= snd r)%Q) /\
  (forall x, In x l -> ~ sentinel x -> (fst r <= x /\ x <= snd r)%Q) /\
  (fst r = fst acc \/ exists x, In x l /\ ~ sentinel x /\ fst r = x) /\
  (snd r = snd acc \/ exists x, In x l /\ ~ sentinel x /\ snd r = x).
Proof.
  revert acc. induction l as [|y l IH]; intros acc.
  - cbn. repeat split; try lra; try (left; reflexivity); contradiction.
  - rewrite fold_left_step. specialize (IH (scan_step acc y)).
    cbv zeta in IH |- *.
    set (r := fold_left scan_step l (scan_step acc y)) in *.
    destruct IH as [[Hlo Hhi] [Hall [Hmin Hmax]]].
    assert (Hstep :
      (Qeq_bool y 0 = true /\ scan_step acc y = acc) \/
      (~ sentinel y /\
       (fst (scan_step acc y) <= fst acc)%Q /\
       (fst (scan_step acc y) <= y)%Q /\
       (snd acc <= snd (scan_step acc y))%Q /\
       (y <= snd (scan_step acc y))%Q /\
       (fst (scan_step acc y) = fst acc \/ fst (scan_step acc y) = y) /\
       (snd (scan_step acc y) = snd acc \/ snd (scan_step acc y) = y))).
    { unfold scan_step, sentinel. destruct (Qeq_bool y 0) eqn:Ey.
      - left. split; reflexivity.
      - right. apply Qeqb_neq in Ey. split; [exact Ey |].
        cbn [fst snd]. cmp_cases; repeat split; auto; lra. }
    destruct Hstep as [[Ey Hs] | (Hy & H1 & H2 & H3 & H4 & H5 & H6)].
    + rewrite Hs in *. apply Qeq_bool_iff in Ey.
      split; [split; assumption |]. split; [|split].
      * intros x [<- | Hin] Hx; [contradiction | auto].
      * destruct Hmin as [E | (x & Hin & Hx & E)]; [left; exact E |].
        right. exists x. split; [right; exact Hin | split; assumption].
      * destruct Hmax as [E | (x & Hin & Hx & E)]; [left; exact E |].
        right. exists x. split; [right; exact Hin | split; assumption].
    + split; [split; lra |]. split; [|split].
      * intros x [<- | Hin] Hx; [lra | auto].
      * destruct Hmin as [E | (x & Hin & Hx & E)].
        -- destruct H5 as [E5 | E5]; [left; congruence |].
           right. exists y. split; [left; reflexivity | split; [exact Hy | congruence]].
        -- right. exists x. split; [right; exact Hin | split; assumption].
      * destruct Hmax as [E | (x & Hin & Hx & E)].
        -- destruct H6 as [E6 | E6]; [left; congruence |].
           right. exists y. split; [left; reflexivity | split; [exact Hy | congruence]].
        -- right. exists x. split; [right; exact Hin | split; assumption].
Qed.

(** The scan of a buffer starts from [(100, -100)]. *)
Lemma scanMinMax_spec (h : list Q) :
  ((fst (scanMinMax h) <= 100)%Q /\ (-100 <= snd (scanMinMax h))%Q) /\
  (forall x, In x h -> ~ sentinel x ->
     (fst (scanMinMax h) <= x /\ x <= snd (scanMinMax h))%Q) /\
  (fst (scanMinMax h) = 100%Q \/
   exists x, In x h /\ ~ sentinel x /\ fst (scanMinMax h) = x) /\
  (snd (scanMinMax h) = (-100)%Q \/
   exists x, In x h /\ ~ sentinel x /\ snd (scanMinMax h) = x).
Proof. exact (scan_fold h (100%Q, (-100)%Q)). Qed.

Lemma scanMinMax_all_sentinel (h : list Q) :
  (forall x, In x h -> sentinel x) -> scanMinMax h = (100%Q, (-100)%Q).
Proof.
  intros Hall. destruct (scanMinMax_spec h) as (_ & _ & Hmin & Hmax).
  destruct Hmin as [E1 | (x & Hin & Hx & _)]; [|elim Hx; auto].
  destruct Hmax as [E2 | (x & Hin & Hx & _)]; [|elim Hx; auto].
  destruct (scanMinMax h) as [a b]. cbn in *. congruence.
Qed.

Lemma hot_history_entries (x : Q) : In x hot_history -> x = 0%Q \/ x = 150%Q.
Proof.
  unfold hot_history. intros H. apply in_app_or in H. destruct H as [H | H].
  - left. apply repeat_spec in H. exact H.
  - right. destruct H as [<- | []]. reflexivity.
Qed.

(** C6 as stated fails: when every reading is above 100 the scan keeps its
    starting minimum 100, which is no entry of the buffer. *)
Lemma scan_min_not_true_min_above_100 :
  length hot_history = MAX_HISTORY /\
  (exists x, In x hot_history /\ ~ sentinel x) /\
  ~ (true_min (fst (scanMinMax hot_history)) hot_history /\
     true_max (snd (scanMinMax hot_history)) hot_history).
Proof.
  split; [reflexivity |]. split.
  - exists 150%Q. split.
    + unfold hot_history. apply in_or_app. right. left. reflexivity.
    + unfold sentinel. intros H. discriminate H.
  - intros [[(x & Hin & Hx & E) _] _].
    change (fst (scanMinMax hot_history)) with 100%Q in E.
    destruct (hot_history_entries x Hin) as [-> | ->]; discriminate E.
Qed.

(** C6 (amended): when some non-sentinel entry is at most 100 and some
    non-sentinel entry is at least -100 (as for every buffer of sensor
    temperatures), the minimum and maximum found by the scan, before
    widening or padding, are the true minimum and the true maximum of the
    non-sentinel entries. *)
Theorem scan_finds_true_min_max (h : list Q) :
  (exists x, In x h /\ ~ sentinel x /\ (x <= 100)%Q) ->
  (exists y, In y h /\ ~ sentinel y /\ (-100 <= y)%Q) ->
  true_min (fst (scanMinMax h)) h /\ true_max (snd (scanMinMax h)) h.
Proof.
  intros (x & Hinx & Hx & Hx100) (y & Hiny & Hy & Hy100).
  destruct (scanMinMax_spec h) as (_ & Hall & Hmin & Hmax).
  split; split; try (intros z Hz Hnz; apply (Hall z Hz Hnz)).
  - destruct Hmin as [E | (z & Hz & Hnz & E)].
    + exists x. split; [exact Hinx | split; [exact Hx |]].
      pose proof (Hall x Hinx Hx) as [Hle _]. rewrite E in *. lra.
    + exists z. split; [exact Hz | split; [exact Hnz |]]. rewrite E. reflexivity.
  - destruct Hmax as [E | (z & Hz & Hnz & E)].
    + exists y. split; [exact Hiny | split; [exact Hy |]].
      pose proof (Hall y Hiny Hy) as [_ Hge]. rewrite E in *. lra.
    + exists z. split; [exact Hz | split; [exact Hnz |]]. rewrite E. reflexivity.
Qed.

Lemma scan_finds_true_min_max_witness :
  true_min 21.5%Q warm_history /\ true_max 22%Q warm_history.
Proof.
  apply (scan_finds_true_min_max warm_history).
  - exists 21.5%Q. split; [|split].
    + unfold warm_history. apply in_or_app. right. left. reflexivity.
    + unfold sentinel. intros H. discriminate H.
    + unfold Qle. cbn. lia.
  - exists 22%Q. split; [|split].
    + unfold warm_history. apply in_or_app. right. right. left. reflexivity.
    + unfold sentinel. intros H. discriminate H.
    + unfold Qle. cbn. lia.
Defined.

(** C3: whatever the buffer holds, the range used to scale the chart has
    non-zero width.  When the scanned [max - min] is below 1 (which
    includes the buffer with no non-sentinel entry) the range is the
    window of half-width 1 about the midpoint, of width 2; otherwise it
    is [min - 0.2, max + 0.2], of width at least 1.4.  The divisor of the
    value-to-pixel [map] call is therefore never zero. *)
Theorem range_never_degenerate (h : list Q) :
  let mm := scanMinMax h in
  let lo := fst (graphRange h) in
  let hi := snd (graphRange h) in
  let mid := ((snd mm + fst mm) / 2)%Q in
  ((snd mm - fst mm < 1)%Q ->
     (lo == mid - 1)%Q /\ (hi == mid + 1)%Q /\ (hi - lo == 2)%Q) /\
  ((1 <= snd mm - fst mm)%Q ->
     (lo == fst mm - 0.2)%Q /\ (hi == snd mm + 0.2)%Q /\ (1.4 <= hi - lo)%Q) /\
  ((forall x, In x h -> sentinel x) ->
     (snd mm - fst mm < 1)%Q /\ (lo == -1)%Q /\ (hi == 1)%Q) /\
  (0.4 <= hi - lo)%Q /\
  ~ (hi - lo == 0)%Q /\
  graph_divisor (graphRange h) <> 0.
Proof.
  intros mm lo hi mid.
  assert (Hw : ((snd mm - fst mm < 1)%Q /\ lo = (mid - 1)%Q /\ hi = (mid + 1)%Q) \/
               ((1 <= snd mm - fst mm)%Q /\
                lo = (fst mm - 0.2)%Q /\ hi = (snd mm + 0.2)%Q)).
  { subst lo hi mid. unfold graphRange, widen. fold mm.
    destruct (Qltb (snd mm - fst mm) 1) eqn:E.
    - left. apply Qltb_lt in E. auto.
    - right. apply Qltb_ge in E. auto. }
  assert (Hwidth : (1.4 <= hi - lo)%Q).
  { destruct Hw as [(H & -> & ->) | (H & -> & ->)]; lra. }
  split; [|split; [|split; [|split; [|split]]]].
  - intros Hlt. destruct Hw as [(_ & -> & ->) | (H & _)]; [|lra].
    repeat split; lra.
  - intros Hge. destruct Hw as [(H & _) | (_ & -> & ->)]; [lra |].
    repeat split; lra.
  - intros Hall. subst lo hi mid mm. unfold graphRange.
    rewrite (scanMinMax_all_sentinel h Hall). cbn. repeat split.
  - lra.
  - lra.
  - unfold graph_divisor, map_run. fold lo hi.
    pose proof (Qtrunc_bounds (lo * 10)) as [_ Hlo].
    pose proof (Qtrunc_bounds (hi * 10)) as [Hhi _].
    assert (H : (inject_Z (Qtrunc (lo * 10)) < inject_Z (Qtrunc (hi * 10)))%Q) by lra.
    rewrite <- Zlt_Qlt in H. lia.
Qed.

(** ** Air-quality percentage *)

Lemma mapGasToPercent_trunc (g : Q) : mapGasToPercent g = Qtrunc (gasScale g).
Proof.
  unfold mapGasToPercent, gasScale, clamp. cbv zeta.
  apply Qtrunc_comp. cmp_cases; try lra; field_simplify; lra.
Qed.

Lemma gasScale_range (g : Q) : (0 <= gasScale g <= 100)%Q.
Proof.
  unfold gasScale, clamp, Qdiv. change (/ (150 - 5))%Q with (1 # 145)%Q.
  cmp_cases; lra.
Qed.



Lemma mapGasToPercent_low (g : Q) : (g <= 5)%Q -> mapGasToPercent g = 100.
Proof.
  intros Hg. rewrite mapGasToPercent_trunc.
  pose proof (gasScale_range g) as [H0 _]. rewrite Qtrunc_floor by exact H0.
  change 100 with (Qfloor 100). apply Qfloor_comp.
  unfold gasScale, clamp, Qdiv. change (/ (150 - 5))%Q with (1 # 145)%Q.
  cmp_cases; lra.
Qed.

Lemma mapGasToPercent_high (g : Q) : (150 <= g)%Q -> mapGasToPercent g = 0.
Proof.
  intros Hg. rewrite mapGasToPercent_trunc.
  pose proof (gasScale_range g) as [H0 _]. rewrite Qtrunc_floor by exact H0.
  change 0 with (Qfloor 0). apply Qfloor_comp.
  unfold gasScale, clamp, Qdiv. change (/ (150 - 5))%Q with (1 # 145)%Q.
  cmp_cases; lra.
Qed.

Lemma gasScale_antitone (g1 g2 : Q) :
  (g1 <= g2)%Q -> (gasScale g2 <= gasScale g1)%Q.
Proof.
  intros H12.
  unfold gasScale, clamp, Qdiv. change (/ (150 - 5))%Q with (1 # 145)%Q.
  cmp_cases; lra.
Qed.

(** C9: at or below 5 kOhm the percentage is 100, at or above 150 kOhm it
    is 0, and between the two it never increases with the resistance. *)
Theorem percent_saturates_and_decreases :
  (forall g, (g <= 5)%Q -> mapGasToPercent g = 100) /\
  (forall g, (150 <= g)%Q -> mapGasToPercent g = 0) /\
  (forall g1 g2, (5 <= g1)%Q -> (g1 <= g2)%Q -> (g2 <= 150)%Q ->
     mapGasToPercent g2 <= mapGasToPercent g1).
Proof.
  split; [exact mapGasToPercent_low |]. split; [exact mapGasToPercent_high |].
  intros g1 g2 _ H12 _. rewrite !mapGasToPercent_trunc.
  pose proof (gasScale_range g1) as [H1 _].
  pose proof (gasScale_range g2) as [H2 _].
  rewrite !Qtrunc_floor by assumption.
  apply Qfloor_resp_le, gasScale_antitone, H12.
Qed.

(** ** Indicator *)

Lemma blink_phase (now : Z) :
  ((now / 200) mod 2 =? 0) = (now mod 400 <? 200).
Proof.
  destruct (Z.eqb_spec ((now / 200) mod 2) 0) as [E | E];
    destruct (Z.ltb_spec (now mod 400) 200) as [L | L];
    try reflexivity; exfalso;
    pose proof (Z.div_mod now 200 ltac:(lia));
    pose proof (Z.mod_pos_bound now 200 ltac:(lia));
    pose proof (Z.div_mod (now / 200) 2 ltac:(lia));
    pose proof (Z.mod_pos_bound (now / 200) 2 ltac:(lia));
    pose proof (Z.div_mod now 400 ltac:(lia));
    pose proof (Z.mod_pos_bound now 400 ltac:(lia));
    lia.
Qed.

Lemma segments_first_on (k : Z) :
  0 <= k ->
  List.map (fun i => Z.of_nat i <? k) (seq 0 numLeds) =
  first_on (Z.to_nat (Z.min k 8)).
Proof.
  intros Hk.
  assert (H : k = 0 \/ k = 1 \/ k = 2 \/ k = 3 \/ k = 4 \/ k = 5 \/ k = 6 \/
              k = 7 \/ 8 <= k) by lia.
  repeat (destruct H as [-> | H]; [reflexivity |]).
  rewrite Z.min_r by lia. cbn.
  repeat match goal with
         | |- context [?a <? k] =>
             let E := fresh in
             destruct (Z.ltb_spec a k) as [E | E]; [|exfalso; lia]
         end.
  reflexivity.
Qed.

(** C7: for a percentage from 0 to 100, up to 90 the bar lights its first
    [floor(percent * (K+1) / 100)] of [K = 8] segments, a count between 0
    and [K] (4 segments at 50); above 90 it blinks instead: every segment
    off while the clock modulo 400 is below 200, every segment on from
    200 on. *)
Theorem led_bar_proportional_or_blinking (env : Env) (percent : Z) (r : Run) :
  0 <= percent <= 100 ->
  let now := wrap32 (clock env (reads r)) in
  let leds := ledLevels (state (snd (updateLedBar env percent r))) in
  let active := percent * (Z.of_nat numLeds + 1) / 100 in
  (percent <= 90 ->
     leds = first_on (Z.to_nat active) /\
     Z.of_nat (lit leds) = active /\ 0 <= active <= Z.of_nat numLeds) /\
  (percent = 50 -> lit leds = 4%nat) /\
  (90 < percent ->
     (now mod 400 < 200 -> leds = repeat false numLeds) /\
     (200 <= now mod 400 -> leds = repeat true numLeds)).
Proof.
  intros Hp now leds active.
  assert (Hmap : arduino_map percent 0 100 0 (Z.of_nat numLeds + 1) = active).
  { unfold arduino_map, map_run, active.
    rewrite Z.sub_0_r, Z.sub_0_r, Z.add_0_r.
    change (Z.of_nat numLeds + 1) with 9. apply Z.quot_div_nonneg; lia. }
  assert (Hleds : leds =
            if (90 <? percent) && (now mod 400 <? 200)
            then repeat false numLeds
            else first_on (Z.to_nat (Z.min active 8))).
  { subst leds now. unfold updateLedBar, millis, bind, ret, modify.
    destruct (Z.ltb_spec percent 0) as [|_]; [lia |].
    destruct (Z.ltb_spec 100 percent) as [|_]; [lia |].
    cbv zeta. rewrite Hmap.
    assert (Ha : 0 <= active).
    { unfold active. change (Z.of_nat numLeds + 1) with 9. apply Z.div_pos; lia. }
    destruct (90 <? percent); cbn [fst snd state reads trace andb].
    - rewrite blink_phase.
      destruct (_ mod 400 <? 200); cbn [snd state set_ledLevels ledLevels].
      + reflexivity.
      + apply segments_first_on, Ha.
    - apply segments_first_on, Ha. }
  assert (Hact : percent <= 90 -> 0 <= active <= 8).
  { intros H. unfold active. change (Z.of_nat numLeds + 1) with 9.
    split; [apply Z.div_pos; lia |].
    assert (percent * 9 / 100 < 9) by (apply Z.div_lt_upper_bound; lia). lia. }
  split; [|split].
  - intros H90. destruct (Hact H90) as [Ha0 Ha8].
    destruct (Z.ltb_spec 90 percent) as [|_]; [lia |]. cbn [andb] in Hleds.
    rewrite Z.min_l in Hleds by lia. rewrite Hleds.
    split; [reflexivity |]. split; [|change (Z.of_nat numLeds) with 8; lia].
    assert (H : active = 0 \/ active = 1 \/ active = 2 \/ active = 3 \/
                active = 4 \/ active = 5 \/ active = 6 \/ active = 7 \/
                active = 8) by lia.
    repeat (destruct H as [-> | H]; [reflexivity |]). rewrite H. reflexivity.
  - intros ->. rewrite Hleds. reflexivity.
  - intros H90. destruct (Z.ltb_spec 90 percent) as [_|]; [|lia].
    cbn [andb] in Hleds.
    assert (Ha : 8 <= active).
    { unfold active. change (Z.of_nat numLeds + 1) with 9.
      apply Z.div_le_lower_bound; lia. }
    split; intros Hm.
    + destruct (Z.ltb_spec (now mod 400) 200) as [_|]; [|lia]. exact Hleds.
    + destruct (Z.ltb_spec (now mod 400) 200) as [|_]; [lia |].
      rewrite Z.min_r in Hleds by lia. exact Hleds.
Qed.

Lemma led_bar_proportional_or_blinking_witness :
  lit (ledLevels
         (state (snd (updateLedBar (mkEnv (frozen 0) None false) 50
                        (mkRun boot 0 [])))))
  = 4%nat.
Proof.
  apply (led_bar_proportional_or_blinking (mkEnv (frozen 0) None false) 50
           (mkRun boot 0 [])); [lia | reflexivity].
Defined.

(** ** Forecast *)

Lemma updateForecast_baseline (p : Q) (s : State) :
  pressureBaseline (updateForecast p s) =
  ((comparison_baseline p s * 0.95) + (p * 0.05))%Q.
Proof.
  unfold updateForecast, comparison_baseline.
  destruct (Qeq_bool (pressureBaseline s) 0); cbn [pressureBaseline set_pressureBaseline];
    repeat match goal with |- context [if ?c then _ else _] => destruct c end;
    reflexivity.
Qed.

Lemma updateForecast_status (p : Q) (s : State) :
  let diff := (p - comparison_baseline p s)%Q in
  weatherStatus (updateForecast p s) =
    if Qltb 0.2 diff then Rising else if Qltb diff (-0.2) then Falling else Stable.
Proof.
  unfold updateForecast, comparison_baseline.
  destruct (Qeq_bool (pressureBaseline s) 0); cbn [pressureBaseline set_pressureBaseline];
    cbv zeta;
    repeat match goal with |- context [if ?c then _ else _] => destruct c end;
    reflexivity.
Qed.

(** ** Web page *)

Lemma cache_fields (s s' : State) :
  cache s' = cache s ->
  lastTemp s' = lastTemp s /\ lastHum s' = lastHum s /\
  lastPres s' = lastPres s /\ lastGas s' = lastGas s.
Proof. unfold cache. intros E. injection E as E1 E2 E3 E4. auto. Qed.




(** ** Control loop: one lemma per block *)

(** The blocks are reasoned about without looking inside the history
    and page functions. *)
Opaque addGraphPoint drawGraph handleRoot.

(** [updateForecast] writes only the baseline and the label. *)
Lemma updateForecast_frame (p : Q) (s : State) :
  timers (updateForecast p s) = timers s /\
  cache (updateForecast p s) = cache s /\
  tempHistory (updateForecast p s) = tempHistory s.
Proof.
  unfold updateForecast.
  repeat match goal with |- context [if ?c then _ else _] => destruct c end;
    repeat split.
Qed.

Lemma lastFire_timers (t : Task) (s s' : State) :
  timers s' = timers s -> lastFire t s' = lastFire t s.
Proof.
  unfold timers. intros E. injection E as E1 E2 E3. destruct t; assumption.
Qed.

Lemma fires_app (t : Task) (l l' : list Event) :
  fires t (l ++ l') = (fires t l + fires t l')%nat.
Proof. unfold fires. rewrite List.filter_app, length_app. reflexivity. Qed.

Lemma bind_unit {A} (c : M unit) (k : M A) (r : Run) :
  (c ;; k) r = k (snd (c r)).
Proof. unfold bind. destruct (c r) as [[] r']. reflexivity. Qed.

Section Blocks.
Variable fmt : Q -> nat -> string.
Variable env : Env.

Lemma handleClient_run (r : Run) :
  state (snd (handleClient fmt env r)) = state r /\
  trace (snd (handleClient fmt env r)) =
    trace r ++ (if request env then [Send (handleRoot fmt (state r))] else []).
Proof.
  unfold handleClient. destruct (request env); cbn.
  - split; reflexivity.
  - rewrite app_nil_r. split; reflexivity.
Qed.

Lemma clockBlock_run (r : Run) :
  state (snd (clockBlock env r)) =
    (if due env ClockTask r then set_lastClockUpdate (stamped env r) (state r)
     else state r) /\
  trace (snd (clockBlock env r)) =
    trace r ++ (if due env ClockTask r then [Fire ClockTask] else []).
Proof.
  unfold clockBlock, due, tested, stamped, millis, bind, get, modify, emit, ret.
  cbn [state reads trace fst snd period lastFire].
  destruct (1000 <? _); cbn [state reads trace fst snd].
  - split; reflexivity.
  - rewrite app_nil_r. split; reflexivity.
Qed.

Lemma updateLedBar_run (percent : Z) (r : Run) :
  state (snd (updateLedBar env percent r)) =
    set_ledLevels (ledLevels (state (snd (updateLedBar env percent r)))) (state r) /\
  trace (snd (updateLedBar env percent r)) = trace r.
Proof.
  unfold updateLedBar, millis, bind, modify, ret. cbv zeta.
  repeat match goal with
         | |- context [if ?c then _ else _] => destruct c; cbn [state reads trace fst snd]
         end; split; reflexivity.
Qed.

(** The state after a successful sample. *)
Lemma sample_run (rd : Reading) (r : Run) :
  let p := (inject_Z (pressure rd) / 100)%Q in
  let g := (inject_Z (gas_resistance rd) / 1000)%Q in
  (exists leds,
     state (snd (sample env rd r)) =
       updateForecast p
         (set_ledLevels leds
            (set_cache (temperature rd) (humidity rd) p g (state r)))) /\
  trace (snd (sample env rd r)) =
    trace r ++ [UpdateValues (temperature rd) (humidity rd) p g].
Proof.
  intros p g.
  pose (r1 := mkRun (set_cache (temperature rd) (humidity rd) p g (state r))
                    (reads r)
                    (trace r ++ [UpdateValues (temperature rd) (humidity rd) p g])).
  assert (E : snd (sample env rd r) =
              snd (modify (updateForecast p)
                     (snd (updateLedBar env (mapGasToPercent g) r1)))).
  { unfold sample, bind, get, emit, modify.
    cbn [state reads trace fst snd set_cache lastTemp lastHum lastPres lastGas].
    fold p g r1. destruct (updateLedBar env (mapGasToPercent g) r1) as [[] r'].
    reflexivity. }
  rewrite E. destruct (updateLedBar_run (mapGasToPercent g) r1) as [Hs Ht].
  unfold modify. cbn [snd state trace]. split.
  - eexists. rewrite Hs. reflexivity.
  - rewrite Ht. reflexivity.
Qed.

Lemma sampleBlock_run (r : Run) :
  (exists leds,
     state (snd (sampleBlock env r)) =
       (if due env SampleTask r then
          match reading env with
          | Some rd =>
              updateForecast (inject_Z (pressure rd) / 100)%Q
                (set_ledLevels leds
                   (set_cache (temperature rd) (humidity rd)
                      (inject_Z (pressure rd) / 100)%Q
                      (inject_Z (gas_resistance rd) / 1000)%Q
                      (set_lastUpdate (stamped env r) (state r))))
          | None => set_lastUpdate (stamped env r) (state r)
          end
        else state r)) /\
  trace (snd (sampleBlock env r)) =
    trace r ++
      (if due env SampleTask r then
         Fire SampleTask :: PerformReading (reading env) ::
           match reading env with
           | Some rd =>
               [UpdateValues (temperature rd) (humidity rd)
                  (inject_Z (pressure rd) / 100)%Q
                  (inject_Z (gas_resistance rd) / 1000)%Q]
           | None => []
           end
       else []).
Proof.
  pose (r1 := mkRun (set_lastUpdate (stamped env r) (state r)) (S (S (reads r)))
                    (trace r ++ [Fire SampleTask] ++ [PerformReading (reading env)])).
  assert (E : snd (sampleBlock env r) =
              if due env SampleTask r then
                match reading env with
                | Some rd => snd (sample env rd r1)
                | None => r1
                end
              else mkRun (state r) (S (reads r)) (trace r)).
  { unfold sampleBlock, due, tested, stamped, millis, bind, get, modify, emit, ret.
    cbn [state reads trace fst snd period lastFire].
    destruct (3000 <? _); [|reflexivity].
    subst r1. unfold stamped. rewrite <- app_assoc.
    destruct (reading env) as [rd|]; [|reflexivity].
    destruct (sample env rd _) as [[] r']. reflexivity. }
  rewrite E. destruct (due env SampleTask r).
  - destruct (reading env) as [rd|].
    + destruct (sample_run rd r1) as [[leds Hs] Ht]. split.
      * exists leds. exact Hs.
      * rewrite Ht. subst r1. cbn [trace]. rewrite <- !app_assoc. reflexivity.
    + split; [exists [] |]; reflexivity.
  - cbn [state trace]. rewrite app_nil_r. split; [exists [] |]; reflexivity.
Qed.

Lemma chartBlock_run (r : Run) :
  state (snd (chartBlock env r)) =
    (if due env ChartTask r then
       if Qeq_bool (lastTemp (state r)) 0
       then set_lastGraphUpdate (stamped env r) (state r)
       else set_tempHistory
              (addGraphPoint (lastTemp (state r)) (tempHistory (state r)))
              (set_lastGraphUpdate (stamped env r) (state r))
     else state r) /\
  trace (snd (chartBlock env r)) =
    trace r ++
      (if due env ChartTask r then
         Fire ChartTask ::
           (if Qeq_bool (lastTemp (state r)) 0 then []
            else [DrawGraph (drawGraph
                    (addGraphPoint (lastTemp (state r)) (tempHistory (state r))))])
       else []).
Proof.
  unfold chartBlock, due, tested, stamped, millis, bind, get, modify, emit, ret.
  cbn [state reads trace fst snd period lastFire].
  destruct (GRAPH_INTERVAL <? _); cbn [state reads trace fst snd].
  - cbn [set_lastGraphUpdate lastTemp tempHistory].
    destruct (Qeq_bool (lastTemp (state r)) 0); cbn [negb state reads trace fst snd];
      rewrite <- ?app_assoc; split; reflexivity.
  - rewrite app_nil_r. split; reflexivity.
Qed.

Lemma runHeartbeat_run (r : Run) :
  state (snd (runHeartbeat env r)) =
    set_builtinLed (tested env r mod 2000 <? 100) (state r) /\
  trace (snd (runHeartbeat env r)) = trace r.
Proof. split; reflexivity. Qed.

(** A block stamps its own timer when it is due and touches no other. *)
Lemma block_timer (b t : Task) (r : Run) :
  lastFire t (state (snd (block env b r))) =
    if task_eqb t b && due env b r then stamped env r else lastFire t (state r).
Proof.
  destruct b; cbn [block].
  - destruct (clockBlock_run r) as [-> _].
    destruct (due env ClockTask r), t; reflexivity.
  - destruct (sampleBlock_run r) as [[leds ->] _].
    destruct (due env SampleTask r); [|destruct t; reflexivity].
    destruct (reading env) as [rd|]; [|destruct t; reflexivity].
    rewrite (lastFire_timers t _ _ (proj1 (updateForecast_frame _ _))).
    destruct t; reflexivity.
  - destruct (chartBlock_run r) as [-> _].
    destruct (due env ChartTask r); [|destruct t; reflexivity].
    destruct (Qeq_bool (lastTemp (state r)) 0), t; reflexivity.
Qed.

(** A block logs one firing of its own task when it is due, and none of
    any other. *)
Lemma block_fires (b t : Task) (r : Run) :
  fires t (trace (snd (block env b r))) =
    (fires t (trace r) + if task_eqb t b && due env b r then 1 else 0)%nat.
Proof.
  destruct b; cbn [block].
  - destruct (clockBlock_run r) as [_ ->]. rewrite fires_app.
    destruct (due env ClockTask r), t; reflexivity.
  - destruct (sampleBlock_run r) as [_ ->]. rewrite fires_app.
    destruct (due env SampleTask r); [|destruct t; reflexivity].
    destruct (reading env), t; reflexivity.
  - destruct (chartBlock_run r) as [_ ->]. rewrite fires_app.
    destruct (due env ChartTask r); [|destruct t; reflexivity].
    destruct (Qeq_bool (lastTemp (state r)) 0), t; reflexivity.
Qed.

(** What the clock and chart blocks leave alone. *)
Lemma clockBlock_frame (r : Run) :
  let s' := state (snd (clockBlock env r)) in
  cache s' = cache (state r) /\
  pressureBaseline s' = pressureBaseline (state r) /\
  weatherStatus s' = weatherStatus (state r) /\
  tempHistory s' = tempHistory (state r).
Proof.
  cbv zeta. destruct (clockBlock_run r) as [-> _].
  destruct (due env ClockTask r); repeat split.
Qed.

Lemma chartBlock_frame (r : Run) :
  let s' := state (snd (chartBlock env r)) in
  cache s' = cache (state r) /\
  pressureBaseline s' = pressureBaseline (state r) /\
  weatherStatus s' = weatherStatus (state r) /\
  tempHistory s' =
    if due env ChartTask r && negb (Qeq_bool (lastTemp (state r)) 0)
    then addGraphPoint (lastTemp (state r)) (tempHistory (state r))
    else tempHistory (state r).
Proof.
  cbv zeta. destruct (chartBlock_run r) as [-> _].
  destruct (due env ChartTask r); [|repeat split].
  destruct (Qeq_bool (lastTemp (state r)) 0); repeat split.
Qed.

(** The sampling block never writes the history, and writes the cache and
    the forecast only after a successful read. *)
Lemma sampleBlock_frame (r : Run) :
  let s' := state (snd (sampleBlock env r)) in
  tempHistory s' = tempHistory (state r) /\
  (due env SampleTask r = false \/ reading env = None ->
   cache s' = cache (state r) /\
   pressureBaseline s' = pressureBaseline (state r) /\
   weatherStatus s' = weatherStatus (state r)).
Proof.
  cbv zeta. destruct (sampleBlock_run r) as [[leds ->] _].
  destruct (due env SampleTask r); [|repeat split].
  destruct (reading env) as [rd|].
  - split.
    + rewrite (proj2 (proj2 (updateForecast_frame _ _))). reflexivity.
    + intros [H | H]; discriminate H.
  - repeat split.
Qed.

(** After a successful read the cache holds the new values, and the
    forecast is the one [updateForecast] computes from the old baseline. *)
Lemma sampleBlock_sampled (r : Run) (rd : Reading) :
  let p := (inject_Z (pressure rd) / 100)%Q in
  let g := (inject_Z (gas_resistance rd) / 1000)%Q in
  let s' := state (snd (sampleBlock env r)) in
  due env SampleTask r = true -> reading env = Some rd ->
  cache s' = (temperature rd, humidity rd, p, g) /\
  pressureBaseline s' = pressureBaseline (updateForecast p (state r)) /\
  weatherStatus s' = weatherStatus (updateForecast p (state r)).
Proof.
  cbv zeta. intros Hd Hr. destruct (sampleBlock_run r) as [[leds ->] _].
  rewrite Hd, Hr. split; [|split].
  - rewrite (proj1 (proj2 (updateForecast_frame _ _))). reflexivity.
  - rewrite !updateForecast_baseline. reflexivity.
  - rewrite !updateForecast_status. reflexivity.
Qed.

(** Reads are logged by the sampling block alone, with their outcome. *)
Lemma sampleBlock_reads (r : Run) (x : option Reading) :
  In (PerformReading x) (trace (snd (sampleBlock env r))) <->
  In (PerformReading x) (trace r) \/ (due env SampleTask r = true /\ x = reading env).
Proof.
  destruct (sampleBlock_run r) as [_ ->]. rewrite in_app_iff.
  destruct (due env SampleTask r).
  - split.
    + intros [H | H]; [left; exact H |]. right. split; [reflexivity |].
      destruct (reading env) as [rd|]; cbn [In] in H;
        repeat match goal with
        | H : _ \/ _ |- _ => destruct H as [H | H]
        | H : False |- _ => destruct H
        end; try discriminate H; congruence.
    + intros [H | [_ ->]]; [left; exact H |]. right. right. left. reflexivity.
  - cbn [In]. split.
    + intros [H | []]. left. exact H.
    + intros [H | [H _]]; [left; exact H | discriminate H].
Qed.

Lemma iterate_run5 (s : State) :
  iterate fmt env s = (state (run5 fmt env s), trace (run5 fmt env s)).
Proof.
  unfold iterate, loop, run5, run4, run3, run2, run1, run0, block.
  rewrite !bind_unit. reflexivity.
Qed.

Lemma run1_state (s : State) : state (run1 fmt env s) = s.
Proof. apply handleClient_run. Qed.

Lemma run1_fires (t : Task) (s : State) : fires t (trace (run1 fmt env s)) = 0%nat.
Proof.
  unfold run1. destruct (handleClient_run (run0 s)) as [_ ->].
  destruct (request env); reflexivity.
Qed.

Lemma run5_timer (t : Task) (s : State) :
  lastFire t (state (run5 fmt env s)) = lastFire t (state (run4 fmt env s)).
Proof. destruct t; reflexivity. Qed.

(** No block before that of [t] has touched the timer of [t]. *)
Lemma run_before_timer (t : Task) (s : State) :
  lastFire t (state (run_before fmt env t s)) = lastFire t s.
Proof.
  destruct t; cbn [run_before].
  - rewrite run1_state. reflexivity.
  - unfold run2. rewrite (block_timer ClockTask SampleTask), run1_state. reflexivity.
  - unfold run3, run2.
    rewrite (block_timer SampleTask ChartTask), (block_timer ClockTask ChartTask),
      run1_state.
    reflexivity.
Qed.

Lemma iterate_timer (t : Task) (s : State) :
  lastFire t (fst (iterate fmt env s)) =
    if due env t (run_before fmt env t s) then stamped env (run_before fmt env t s) else lastFire t s.
Proof.
  rewrite iterate_run5. cbn [fst]. rewrite run5_timer. unfold run4, run3, run2.
  rewrite (block_timer ChartTask t), (block_timer SampleTask t),
    (block_timer ClockTask t), run1_state.
  fold (run2 fmt env s). fold (run3 fmt env s).
  destruct t; cbn [task_eqb andb run_before];
    repeat match goal with |- context [due env ?b ?r] => destruct (due env b r) end;
    reflexivity.
Qed.

Lemma iterate_fires (t : Task) (s : State) :
  fires t (snd (iterate fmt env s)) =
    if due env t (run_before fmt env t s) then 1%nat else 0%nat.
Proof.
  rewrite iterate_run5. cbn [snd].
  destruct (runHeartbeat_run (run4 fmt env s)) as [_ E5].
  unfold run5. rewrite E5. unfold run4, run3, run2.
  rewrite (block_fires ChartTask t), (block_fires SampleTask t),
    (block_fires ClockTask t).
  rewrite run1_fires. fold (run2 fmt env s). fold (run3 fmt env s).
  destruct t; cbn [task_eqb andb run_before];
    repeat match goal with |- context [due env ?b ?r] => destruct (due env b r) end;
    reflexivity.
Qed.

(** Under a clock that stands still, being due is a test on the timer as
    it was before the iteration. *)
Lemma due_frozen (now : Z) (t : Task) (s : State) :
  (forall k, clock env k = now) ->
  due env t (run_before fmt env t s) = (period t <? usub (wrap32 now) (lastFire t s)) /\
  stamped env (run_before fmt env t s) = wrap32 now.
Proof.
  intros Hf. unfold due, tested, stamped. rewrite !Hf, run_before_timer.
  split; reflexivity.
Qed.

(** A read is logged in an iteration exactly when the sampling block is
    due, with the outcome the sensor gave. *)
Lemma iterate_reads (s : State) (x : option Reading) :
  In (PerformReading x) (snd (iterate fmt env s)) <->
  due env SampleTask (run2 fmt env s) = true /\ x = reading env.
Proof.
  rewrite iterate_run5. cbn [snd].
  destruct (runHeartbeat_run (run4 fmt env s)) as [_ E5]. unfold run5. rewrite E5.
  destruct (chartBlock_run (run3 fmt env s)) as [_ E4]. unfold run4, block. rewrite E4.
  rewrite in_app_iff. unfold run3, block at 1. rewrite sampleBlock_reads.
  destruct (clockBlock_run (run1 fmt env s)) as [_ E2]. unfold run2 at 1, block at 1.
  rewrite E2. rewrite in_app_iff.
  destruct (handleClient_run (run0 s)) as [_ E1]. unfold run1 at 1. rewrite E1.
  rewrite in_app_iff. cbn [run0 trace In].
  split.
  - intros [[[[[] | H] | H] | H] | H]; [| | exact H |].
    + destruct (request env); cbn [In] in H; intuition discriminate.
    + destruct (due env ClockTask (run1 fmt env s)); cbn [In] in H; intuition discriminate.
    + destruct (due env ChartTask _); [|destruct H].
      destruct (Qeq_bool _ 0); cbn [In] in H; intuition discriminate.
  - intros H. left. right. exact H.
Qed.



End Blocks.

(** C2 as stated fails: polled exactly one period after the last firing
    ([elapsed = period = 1000]), the clock block does not run. *)
Lemma no_fire_at_exact_period :
  usub (wrap32 1000) (lastFire ClockTask boot) = period ClockTask /\
  fires ClockTask
    (snd (iterate (fun _ _ => EmptyString) (mkEnv (frozen 1000) None false) boot))
  = 0%nat.
Proof. split; vm_compute; reflexivity. Qed.

(** C2 (amended): in any poll each of the three timed blocks runs at
    most once, and a block that did not run leaves its [lastFireTime]
    alone.  In a poll during which [millis()] reads [now], a block runs
    exactly once when [elapsed = now - lastFireTime] (an [unsigned long]
    difference) is strictly greater than its period and not at all when
    [elapsed <= period]; when it runs, its [lastFireTime] becomes [now],
    not [lastFireTime + period], so a poll with [elapsed = 10 * period]
    still runs it once. *)
Theorem task_fires_once_when_overdue
  (fmt : Q -> nat -> string) (env : Env) (s : State) (t : Task) :
  let s' := fst (iterate fmt env s) in
  let tr := snd (iterate fmt env s) in
  (fires t tr <= 1)%nat /\
  (fires t tr = 0%nat -> lastFire t s' = lastFire t s) /\
  (forall now, (forall k, clock env k = now) ->
     let elapsed := usub (wrap32 now) (lastFire t s) in
     (period t < elapsed ->
        fires t tr = 1%nat /\ lastFire t s' = wrap32 now) /\
     (elapsed <= period t ->
        fires t tr = 0%nat /\ lastFire t s' = lastFire t s) /\
     (elapsed = 10 * period t -> fires t tr = 1%nat)).
Proof.
  cbv zeta. rewrite iterate_timer, iterate_fires. split; [|split].
  - destruct (due env t _); lia.
  - destruct (due env t _); [discriminate | reflexivity].
  - intros now Hf.
    destruct (due_frozen fmt env now t s Hf) as [-> ->].
    assert (Hp : 0 < period t) by (destruct t; reflexivity).
    destruct (Z.ltb_spec (period t) (usub (wrap32 now) (lastFire t s)))
      as [Hlt | Hge]; repeat split; intros; try reflexivity; lia.
Qed.

Lemma task_fires_once_when_overdue_witness :
  fires SampleTask
    (snd (iterate (fun _ _ => EmptyString) (mkEnv (frozen 30000) None false) boot))
  = 1%nat.
Proof.
  destruct (task_fires_once_when_overdue (fun _ _ => EmptyString)
              (mkEnv (frozen 30000) None false) boot SampleTask)
    as (_ & _ & H).
  destruct (H 30000 (fun k => eq_refl)) as (_ & _ & H10).
  apply H10. reflexivity.
Defined.




(** ** Before the first successful read *)




(** ** Forecast: the sampling tick *)


(** * Further properties *)

Transparent addGraphPoint drawGraph handleRoot.

(** ** Start-up *)

(** The wait from any point of the loop: it ends within the retries
    left, at the first call that answers "connected" if there is one. *)
Lemma wifiWait_spec (connected : nat -> bool) (left retry : nat) :
  let r := wifiWait connected left retry in
  (retry <= r <= retry + left)%nat /\
  (forall k, (retry <= k < r)%nat -> connected k = false) /\
  (connected r = true \/ r = (retry + left)%nat).
Proof.
  revert retry. induction left as [|left IH]; intros retry; cbn [wifiWait].
  - destruct (connected retry) eqn:E; repeat split; try lia; auto.
  - destruct (connected retry) eqn:E.
    + repeat split; try lia; auto.
    + specialize (IH (S retry)). cbv zeta in IH.
      destruct IH as (Hb & Hall & Hend).
      split; [lia |]. split.
      * intros k Hk. destruct (Nat.eq_dec k retry) as [-> | Hne]; [exact E |].
        apply Hall. lia.
      * destruct Hend as [H | H]; [left; exact H | right; lia].
Qed.

(** X1: [setup] waits for the network at most 20 times 500 ms, stops
    waiting at the first [WiFi.status()] call that answers "connected",
    and a network that never comes up does not stop the station: after
    exactly 20 retries it goes on without the web server, into the same
    initial state.  Only a missing sensor keeps [setup] from returning. *)
Theorem setup_waits_at_most_ten_seconds (connected : nat -> bool) :
  setup connected false = None /\
  (exists st,
     setup connected true = Some st /\
     globals st = boot /\
     (wifiRetries st <= 20)%nat /\
     500 * Z.of_nat (wifiRetries st) <= 10000 /\
     (forall k, (k < wifiRetries st)%nat -> connected k = false) /\
     (connected (wifiRetries st) = true \/ wifiRetries st = 20%nat) /\
     (forall k, connected k = true -> (wifiRetries st <= k)%nat) /\
     serverStarted st = connected (S (wifiRetries st))) /\
  ((forall k, connected k = false) ->
   setup connected true = Some (mkStarted 20 false false boot)).
Proof.
  pose proof (wifiWait_spec connected 20 0) as H. cbv zeta in H.
  destruct H as (Hb & Hall & Hend).
  split; [reflexivity |]. split.
  - eexists. split; [reflexivity |]. cbn [globals wifiRetries serverStarted].
    split; [reflexivity |]. split; [lia |]. split; [lia |].
    split; [intros k Hk; apply Hall; lia |]. split; [exact Hend |].
    split; [|reflexivity].
    intros k Hk.
    destruct (Nat.le_gt_cases (wifiWait connected 20 0) k) as [Hle | Hgt];
      [exact Hle |].
    rewrite Hall in Hk by lia. discriminate Hk.
  - intros Hnever. unfold setup. cbn [negb].
    destruct Hend as [Hc | Hr]; [rewrite Hnever in Hc; discriminate Hc |].
    rewrite Hr, !Hnever. reflexivity.
Qed.

(** ** Air-quality bar and page colour *)

Lemma mapGasToPercent_range (g : Q) : 0 <= mapGasToPercent g <= 100.
Proof.
  pose proof (gasScale_range g) as [H0 H100].
  rewrite mapGasToPercent_trunc, Qtrunc_floor by exact H0. split.
  - change 0 with (Qfloor 0). apply Qfloor_resp_le, H0.
  - change 100 with (Qfloor 100). apply Qfloor_resp_le, H100.
Qed.

Lemma iaqBar_width (g : Q) :
  fst (fst (iaqBar g)) = mapGasToPercent g * 196 / 100.
Proof.
  pose proof (mapGasToPercent_range g) as Hp.
  unfold iaqBar. cbv zeta. cbn [fst]. unfold arduino_map, map_run.
  rewrite !Z.sub_0_r, Z.add_0_r. apply Z.quot_div_nonneg; lia.
Qed.

Lemma iaqBar_thresholds (g : Q) :
  (60 <? fst (fst (iaqBar g))) = (31 <? mapGasToPercent g) /\
  (120 <? fst (fst (iaqBar g))) = (61 <? mapGasToPercent g).
Proof.
  pose proof (mapGasToPercent_range g) as Hp. rewrite iaqBar_width.
  set (pct := mapGasToPercent g) in *. split.
  - destruct (Z.ltb_spec 31 pct) as [H | H].
    + apply Z.ltb_lt.
      assert (61 <= pct * 196 / 100) by (apply Z.div_le_lower_bound; lia). lia.
    + apply Z.ltb_ge.
      assert (pct * 196 / 100 < 61) by (apply Z.div_lt_upper_bound; lia). lia.
  - destruct (Z.ltb_spec 61 pct) as [H | H].
    + apply Z.ltb_lt.
      assert (121 <= pct * 196 / 100) by (apply Z.div_le_lower_bound; lia). lia.
    + apply Z.ltb_ge.
      assert (pct * 196 / 100 < 120) by (apply Z.div_lt_upper_bound; lia). lia.
Qed.


(** X2: the air-quality bar of the display.  Its width is
    [floor(percent * 196 / 100)], between 0 and 196, so the coloured
    rectangle and the erasing rectangle have non-negative widths, touch,
    and together fill the 196 columns from 22 on.  The text is GOOD up to
    31 %, MODERATE from 32 % to 61 %, BAD from 62 % on, with the colours
    green, orange, red. *)
Theorem iaq_bar_fills_and_grades (g : Q) :
  let pct := mapGasToPercent g in
  let width := fst (fst (iaqBar g)) in
  let filled := fst (snd (fst (iaqBar g))) in
  let cleared := snd (snd (fst (iaqBar g))) in
  let status := snd (iaqBar g) in
  width = pct * 196 / 100 /\
  0 <= width <= 196 /\
  (rx filled = 22 /\ rw filled = width /\ rx cleared = 22 + width /\
   0 <= rw cleared /\ rw filled + rw cleared = 196 /\ rcolor cleared = C_BG) /\
  (pct <= 31 -> status = "GOOD"%string /\ rcolor filled = TFT_GREEN) /\
  (32 <= pct <= 61 -> status = "MODERATE"%string /\ rcolor filled = TFT_ORANGE) /\
  (62 <= pct -> status = "BAD"%string /\ rcolor filled = TFT_RED).
Proof.
  intros pct width filled cleared status.
  pose proof (mapGasToPercent_range g) as Hp. fold pct in Hp.
  pose proof (iaqBar_width g) as Hw. fold pct width in Hw.
  assert (Hrange : 0 <= width <= 196).
  { rewrite Hw. split; [apply Z.div_pos; lia |].
    apply Z.div_le_upper_bound; lia. }
  destruct (iaqBar_thresholds g) as [E60 E120]. fold pct width in E60, E120.
  split; [exact Hw |]. split; [exact Hrange |].
  subst filled cleared status. unfold iaqBar. cbv zeta.
  cbn [fst snd rx rw rcolor]. fold pct. change (arduino_map pct 0 100 0 196) with width.
  rewrite E60, E120.
  split; [repeat split; lia |].
  split; [|split]; intros H.
  - destruct (Z.ltb_spec 31 pct); [lia |]. destruct (Z.ltb_spec 61 pct); [lia |].
    split; reflexivity.
  - destruct (Z.ltb_spec 31 pct); [|lia]. destruct (Z.ltb_spec 61 pct); [lia |].
    split; reflexivity.
  - destruct (Z.ltb_spec 31 pct); [|lia]. destruct (Z.ltb_spec 61 pct); [|lia].
    split; reflexivity.
Qed.





(** ** Serving the page *)

Lemma pages_app (l l' : list Event) : pages (l ++ l') = pages l ++ pages l'.
Proof. unfold pages. apply flat_map_app. Qed.

(** The events of an iteration, block by block. *)
Lemma iterate_trace (fmt : Q -> nat -> string) (env : Env) (s : State) :
  snd (iterate fmt env s) =
    (if request env then [Send (handleRoot fmt s)] else []) ++
    (if due env ClockTask (run1 fmt env s) then [Fire ClockTask] else []) ++
    (if due env SampleTask (run2 fmt env s) then
       Fire SampleTask :: PerformReading (reading env) ::
         match reading env with
         | Some rd =>
             [UpdateValues (temperature rd) (humidity rd)
                (inject_Z (pressure rd) / 100)%Q
                (inject_Z (gas_resistance rd) / 1000)%Q]
         | None => []
         end
     else []) ++
    (if due env ChartTask (run3 fmt env s) then
       Fire ChartTask ::
         (if Qeq_bool (lastTemp (state (run3 fmt env s))) 0 then []
          else [DrawGraph (drawGraph
                  (addGraphPoint (lastTemp (state (run3 fmt env s)))
                     (tempHistory (state (run3 fmt env s)))))])
     else []).
Proof.
  rewrite iterate_run5. cbn [snd].
  destruct (runHeartbeat_run env (run4 fmt env s)) as [_ E5].
  unfold run5. rewrite E5.
  destruct (chartBlock_run env (run3 fmt env s)) as [_ E4].
  unfold run4, block. rewrite E4.
  destruct (sampleBlock_run env (run2 fmt env s)) as [_ E3].
  unfold run3 at 1, block. rewrite E3.
  destruct (clockBlock_run env (run1 fmt env s)) as [_ E2].
  unfold run2 at 1, block. rewrite E2.
  destruct (handleClient_run fmt env (run0 s)) as [_ E1].
  unfold run1 at 1. rewrite E1. cbn [run0 trace state app].
  rewrite <- !app_assoc. reflexivity.
Qed.

Lemma iterate_pages (fmt : Q -> nat -> string) (env : Env) (s : State) :
  pages (snd (iterate fmt env s)) =
    if request env then [handleRoot fmt s] else [].
Proof.
  rewrite iterate_trace, !pages_app.
  replace (pages (if due env ChartTask _ then _ else [])) with (@nil string)
    by (destruct (due env ChartTask _); [destruct (Qeq_bool _ 0) |]; reflexivity).
  replace (pages (if due env SampleTask _ then _ else [])) with (@nil string)
    by (destruct (due env SampleTask _); [destruct (reading env) |]; reflexivity).
  replace (pages (if due env ClockTask _ then _ else [])) with (@nil string)
    by (destruct (due env ClockTask _); reflexivity).
  rewrite !app_nil_r. destruct (request env); reflexivity.
Qed.

(** X5: an iteration of [loop] sends a page only on request, and then
    exactly one, before any block has run: the page shows the state as it
    was when the iteration began, and a sample taken in the same
    iteration is not on it. *)
Theorem page_sent_once_from_old_state
  (fmt : Q -> nat -> string) (env : Env) (s : State) :
  pages (snd (iterate fmt env s)) =
    (if request env then [handleRoot fmt s] else []) /\
  (forall html, In (Send html) (snd (iterate fmt env s)) ->
     request env = true /\ html = handleRoot fmt s /\
     hd_error (snd (iterate fmt env s)) = Some (Send html)).
Proof.
  split; [apply iterate_pages |].
  intros html Hin.
  assert (Hp : In html (pages (snd (iterate fmt env s)))).
  { unfold pages. apply in_flat_map. exists (Send html).
    split; [exact Hin | left; reflexivity]. }
  rewrite iterate_pages in Hp. rewrite iterate_trace.
  destruct (request env); [|destruct Hp].
  destruct Hp as [<- | []]. repeat split.
Qed.

(** ** Timers across the wrap of [millis()] *)

Lemma usub_elapsed (t0 d : Z) :
  0 <= d < U32 -> usub (wrap32 (t0 + d)) (wrap32 t0) = d.
Proof.
  intros Hd. unfold usub, wrap32.
  rewrite <- Zminus_mod. replace (t0 + d - t0) with d by lia.
  apply Z.mod_small, Hd.
Qed.

(** X6: the timers survive the wrap of the 32-bit clock.  If a block last
    ran at time [t0] and the poll happens [d] milliseconds later, with
    [d] below 2^32, the block runs exactly when [d] exceeds its period,
    even when [millis()] has wrapped around in between. *)
Theorem timers_survive_clock_wrap
  (fmt : Q -> nat -> string) (env : Env) (s : State) (t : Task) (t0 d : Z) :
  lastFire t s = wrap32 t0 ->
  0 <= d < U32 ->
  (forall k, clock env k = t0 + d) ->
  (period t < d ->
     fires t (snd (iterate fmt env s)) = 1%nat /\
     lastFire t (fst (iterate fmt env s)) = wrap32 (t0 + d)) /\
  (d <= period t ->
     fires t (snd (iterate fmt env s)) = 0%nat /\
     lastFire t (fst (iterate fmt env s)) = wrap32 t0).
Proof.
  intros Hlast Hd Hf.
  rewrite iterate_timer, iterate_fires.
  destruct (due_frozen fmt env (t0 + d) t s Hf) as [-> ->].
  rewrite Hlast, usub_elapsed by exact Hd.
  destruct (Z.ltb_spec (period t) d); split; intros; try lia; split; reflexivity.
Qed.

Lemma timers_survive_clock_wrap_witness :
  fires ClockTask
    (snd (iterate (fun _ _ => EmptyString)
            (mkEnv (frozen (4294966796 + 1001)) None false)
            (set_lastClockUpdate 4294966796 boot)))
  = 1%nat.
Proof.
  apply (timers_survive_clock_wrap (fun _ _ => EmptyString)
           (mkEnv (frozen (4294966796 + 1001)) None false)
           (set_lastClockUpdate 4294966796 boot) ClockTask 4294966796 1001).
  - reflexivity.
  - unfold U32. lia.
  - intros k. reflexivity.
  - reflexivity.
Defined.

(** ** The history across an iteration *)

Section History.
Variable fmt : Q -> nat -> string.
Variable env : Env.

(** The history after an iteration: the chart block, when due, pushes the
    temperature that is in the cache after the sampling block. *)
Lemma iterate_history (s : State) :
  tempHistory (fst (iterate fmt env s)) =
    if due env ChartTask (run3 fmt env s)
       && negb (Qeq_bool (lastTemp (state (run3 fmt env s))) 0)
    then addGraphPoint (lastTemp (state (run3 fmt env s))) (tempHistory s)
    else tempHistory s.
Proof.
  rewrite iterate_run5. cbn [fst].
  destruct (clockBlock_frame env (run1 fmt env s)) as (_ & _ & _ & H2).
  destruct (sampleBlock_frame env (run2 fmt env s)) as (H3 & _).
  destruct (chartBlock_frame env (run3 fmt env s)) as (_ & _ & _ & H4).
  rewrite run1_state in H2.
  fold (block env ClockTask) in H2. fold (run2 fmt env s) in H2.
  fold (block env SampleTask) in H3. fold (run3 fmt env s) in H3.
  fold (block env ChartTask) in H4. fold (run4 fmt env s) in H4.
  change (tempHistory (state (run5 fmt env s)))
    with (tempHistory (state (run4 fmt env s))).
  rewrite H4, H3, H2. reflexivity.
Qed.

(** The temperature in the cache when the chart block runs. *)
Lemma run3_lastTemp (s : State) :
  lastTemp (state (run3 fmt env s)) =
    if due env SampleTask (run2 fmt env s) then
      match reading env with
      | Some rd => temperature rd
      | None => lastTemp s
      end
    else lastTemp s.
Proof.
  destruct (clockBlock_frame env (run1 fmt env s)) as (C2 & _).
  rewrite run1_state in C2.
  fold (block env ClockTask) in C2. fold (run2 fmt env s) in C2.
  assert (T2 : lastTemp (state (run2 fmt env s)) = lastTemp s)
    by (apply cache_fields, C2).
  destruct (due env SampleTask (run2 fmt env s)) eqn:Hd.
  - destruct (reading env) as [rd|] eqn:Hr.
    + destruct (sampleBlock_sampled env (run2 fmt env s) rd Hd Hr) as (C3 & _).
      fold (block env SampleTask) in C3. fold (run3 fmt env s) in C3.
      unfold cache in C3. injection C3 as E _ _ _. exact E.
    + destruct (sampleBlock_frame env (run2 fmt env s)) as (_ & K3).
      destruct (K3 (or_intror Hr)) as (C3 & _).
      fold (block env SampleTask) in C3. fold (run3 fmt env s) in C3.
      rewrite <- T2. apply cache_fields, C3.
  - destruct (sampleBlock_frame env (run2 fmt env s)) as (_ & K3).
    destruct (K3 (or_introl Hd)) as (C3 & _).
    fold (block env SampleTask) in C3. fold (run3 fmt env s) in C3.
    rewrite <- T2. apply cache_fields, C3.
Qed.

End History.

(** X7: what the chart block does to the history in one iteration.  The
    history changes only in an iteration where the chart task fires; when
    a read has succeeded in that same iteration the temperature pushed is
    the one just read, not the older cached one, and a reading of exactly
    0 degrees is not pushed at all.  Each redraw shows the history as it
    is after the push, and a redraw happens only with a push of a value
    other than 0. *)
Theorem chart_pushes_latest_nonzero_temperature
  (fmt : Q -> nat -> string) (env : Env) (s : State) :
  let s' := fst (iterate fmt env s) in
  let tr := snd (iterate fmt env s) in
  (fires ChartTask tr = 0%nat -> tempHistory s' = tempHistory s) /\
  (fires ChartTask tr = 1%nat ->
   forall rd, In (PerformReading (Some rd)) tr ->
     tempHistory s' =
       if Qeq_bool (temperature rd) 0 then tempHistory s
       else addGraphPoint (temperature rd) (tempHistory s)) /\
  (forall l, In (DrawGraph l) tr ->
     l = drawGraph (tempHistory s') /\
     exists v, ~ sentinel v /\ tempHistory s' = addGraphPoint v (tempHistory s)).
Proof.
  cbv zeta. rewrite iterate_history.
  rewrite (iterate_fires fmt env ChartTask s). cbn [run_before].
  split; [|split].
  - destruct (due env ChartTask (run3 fmt env s)); [discriminate | reflexivity].
  - destruct (due env ChartTask (run3 fmt env s)); [|discriminate].
    intros _ rd Hin. apply iterate_reads in Hin. destruct Hin as [Hd Hr].
    rewrite run3_lastTemp, Hd, <- Hr. cbn [andb].
    destruct (Qeq_bool (temperature rd) 0); reflexivity.
  - intros l Hin. rewrite iterate_trace in Hin.
    assert (T3 : tempHistory (state (run3 fmt env s)) = tempHistory s).
    { destruct (clockBlock_frame env (run1 fmt env s)) as (_ & _ & _ & H2).
      destruct (sampleBlock_frame env (run2 fmt env s)) as (H3 & _).
      rewrite run1_state in H2.
      fold (block env ClockTask) in H2. fold (run2 fmt env s) in H2.
      fold (block env SampleTask) in H3. fold (run3 fmt env s) in H3.
      congruence. }
    rewrite T3 in Hin. rewrite !in_app_iff in Hin.
    destruct Hin as [Hin | [Hin | [Hin | Hin]]].
    + destruct (request env); cbn [In] in Hin; intuition discriminate.
    + destruct (due env ClockTask _); cbn [In] in Hin; intuition discriminate.
    + destruct (due env SampleTask _); [|destruct Hin].
      destruct (reading env); cbn [In] in Hin; intuition discriminate.
    + destruct (due env ChartTask _); [|destruct Hin].
      destruct (Qeq_bool (lastTemp (state (run3 fmt env s))) 0) eqn:E;
        cbn [In] in Hin; [intuition discriminate |].
      destruct Hin as [Hin | [Hin | []]]; [discriminate Hin |].
      injection Hin as <-. cbn [andb negb]. split; [reflexivity |].
      exists (lastTemp (state (run3 fmt env s))). split; [|reflexivity].
      apply Qeqb_neq, E.
Qed.

(** ** The shape of the history *)

Lemma holds_length (h vs : list Q) : holds h vs -> length h = MAX_HISTORY.
Proof.
  intros (-> & Hlen & _). rewrite length_app, repeat_length. lia.
Qed.

(** A push appends the reading, and drops the oldest one once the buffer
    is full. *)
Lemma addGraphPoint_holds (v : Q) (h vs : list Q) :
  holds h vs -> ~ sentinel v ->
  holds (addGraphPoint v h)
        (if (length vs <? MAX_HISTORY)%nat then vs ++ [v] else drop 1 vs ++ [v]).
Proof.
  intros Hh Hv. pose proof (holds_length h vs Hh) as Hlen.
  destruct Hh as (Eh & Hle & Hall).
  rewrite (addGraphPoint_shift v h Hlen). unfold holds.
  destruct (Nat.ltb_spec (length vs) MAX_HISTORY) as [Hlt | Hge].
  - split; [|split].
    + rewrite Eh, length_app. cbn [length].
      replace (MAX_HISTORY - length vs)%nat
        with (S (MAX_HISTORY - (length vs + 1)))%nat by lia.
      cbn [repeat app drop]. rewrite <- app_assoc. reflexivity.
    + rewrite length_app. cbn [length]. lia.
    + apply Forall_app. split; [exact Hall |]. constructor; [exact Hv | constructor].
  - assert (El : length vs = MAX_HISTORY) by lia.
    assert (E0 : h = vs).
    { rewrite Eh, El, Nat.sub_diag. reflexivity. }
    assert (Ed : drop 1 (vs ++ [v]) = drop 1 vs ++ [v]).
    { destruct vs; [discriminate El | reflexivity]. }
    assert (Eld : length (drop 1 vs ++ [v]) = MAX_HISTORY).
    { rewrite length_app, length_drop, El. cbn [length]. unfold MAX_HISTORY. lia. }
    split; [|split].
    + rewrite Eld, Nat.sub_diag, E0, Ed. reflexivity.
    + rewrite Eld. lia.
    + apply Forall_app. split.
      * apply Forall_drop, Hall.
      * constructor; [exact Hv | constructor].
Qed.

(** X8: the shape of the history in every state the sketch can reach.
    The buffer always has [MAX_HISTORY] cells; the readings it holds sit
    together at its right end, oldest first, none of them is 0, and every
    cell before them still has the initial 0. *)
Theorem history_holds_readings_at_right_end
  (fmt : Q -> nat -> string) (s : State) :
  reachable fmt s ->
  length (tempHistory s) = MAX_HISTORY /\
  exists vs, holds (tempHistory s) vs.
Proof.
  intros Hr.
  assert (H : exists vs, holds (tempHistory s) vs).
  { induction Hr as [|env s Hr [vs IH]].
    - exists []. split; [|split]; [reflexivity | cbn; lia | constructor].
    - rewrite iterate_history.
      destruct (due env ChartTask (run3 fmt env s)); [|exists vs; exact IH].
      destruct (Qeq_bool (lastTemp (state (run3 fmt env s))) 0) eqn:E;
        [exists vs; exact IH |].
      cbn [andb negb]. eexists. apply addGraphPoint_holds; [exact IH |].
      apply Qeqb_neq, E. }
  split; [|exact H]. destruct H as [vs H]. exact (holds_length _ _ H).
Qed.

Lemma history_holds_readings_at_right_end_witness :
  length (tempHistory after_first_reading) = MAX_HISTORY /\
  exists vs, holds (tempHistory after_first_reading) vs.
Proof.
  apply (history_holds_readings_at_right_end (fun _ _ => EmptyString)
           after_first_reading).
  apply reach_iter, reach_boot.
Defined.

(** ** The segments of the chart *)

Lemma flat_map_nil {A B} (f : A -> list B) (l : list A) :
  (forall x, In x l -> f x = []) -> flat_map f l = [].
Proof.
  induction l as [|a l IH]; intros H; [reflexivity |]. cbn [flat_map].
  rewrite (H a (or_introl eq_refl)), IH; [reflexivity |].
  intros x Hx. apply H. right. exact Hx.
Qed.

Lemma flat_map_singletons {A B} (f : A -> list B) (g : A -> B) (l : list A) :
  (forall x, In x l -> f x = [g x]) -> flat_map f l = List.map g l.
Proof.
  induction l as [|a l IH]; intros H; [reflexivity |]. cbn [flat_map List.map].
  rewrite (H a (or_introl eq_refl)), IH; [reflexivity |].
  intros x Hx. apply H. right. exact Hx.
Qed.

Lemma map_lookup_Some {A B} (f : A -> B) (l : list A) (i : nat) (b : B) :
  List.map f l !! i = Some b -> exists a, l !! i = Some a /\ b = f a.
Proof.
  revert i. induction l as [|x l IH]; intros [|i] H; try discriminate H.
  - injection H as <-. exists x. split; reflexivity.
  - apply IH, H.
Qed.

Lemma holds_cell_unused (h vs : list Q) (i : nat) :
  holds h vs -> (i < MAX_HISTORY - length vs)%nat -> cell h i = 0%Q.
Proof.
  intros (-> & _ & _) Hi. unfold cell.
  rewrite app_nth1 by (rewrite repeat_length; exact Hi).
  apply nth_repeat.
Qed.

Lemma holds_cell_reading (h vs : list Q) (i : nat) :
  holds h vs -> (MAX_HISTORY - length vs <= i < MAX_HISTORY)%nat ->
  ~ sentinel (cell h i).
Proof.
  intros (-> & Hle & Hall) Hi. unfold cell.
  rewrite app_nth2 by (rewrite repeat_length; lia). rewrite repeat_length.
  rewrite List.Forall_forall in Hall. apply Hall, nth_In. lia.
Qed.

Lemma drawGraph_flat_map (h : list Q) :
  drawGraph h =
    flat_map
      (fun i => if Qeq_bool (cell h i) 0 || Qeq_bool (cell h (S i)) 0
                then [] else [segment h i])
      (seq 0 (MAX_HISTORY - 1)).
Proof. reflexivity. Qed.

(** X9: the segments of the chart.  When the buffer holds [n] readings,
    [drawGraph] draws the [n - 1] segments that join neighbouring
    readings, from left to right, and nothing in the unused part: no
    segment for 0 or 1 readings, 39 for a full buffer.  Each segment
    starts where the one before it ends. *)
Theorem chart_joins_neighbouring_readings (h vs : list Q) :
  holds h vs ->
  drawGraph h =
    List.map (segment h) (seq (MAX_HISTORY - length vs) (length vs - 1)) /\
  length (drawGraph h) = (length vs - 1)%nat /\
  (forall i a b, drawGraph h !! i = Some a -> drawGraph h !! S i = Some b ->
     lx1 b = lx2 a /\ ly1 b = ly2 a).
Proof.
  intros Hh.
  assert (E : drawGraph h =
              List.map (segment h) (seq (MAX_HISTORY - length vs) (length vs - 1))).
  { rewrite drawGraph_flat_map.
    pose proof Hh as (_ & Hle & _).
    set (k := (MAX_HISTORY - length vs)%nat).
    replace (seq 0 (MAX_HISTORY - 1))
      with (seq 0 (Nat.min k (MAX_HISTORY - 1)) ++
            seq (Nat.min k (MAX_HISTORY - 1)) (length vs - 1)).
    2:{ rewrite <- seq_app. f_equal. subst k. unfold MAX_HISTORY in *. lia. }
    rewrite flat_map_app, flat_map_nil, app_nil_l.
    2:{ intros i Hi. apply in_seq in Hi.
        rewrite (holds_cell_unused h vs i Hh) by (subst k; lia). reflexivity. }
    destruct (Nat.eq_dec (length vs) 0%nat) as [E0 | Hn].
    { rewrite E0. reflexivity. }
    replace (Nat.min k (MAX_HISTORY - 1)) with k
      by (subst k; unfold MAX_HISTORY in *; lia).
    apply flat_map_singletons. intros i Hi. apply in_seq in Hi.
    pose proof (holds_cell_reading h vs i Hh) as H1.
    pose proof (holds_cell_reading h vs (S i) Hh) as H2.
    assert (Hi1 : (k <= i < MAX_HISTORY)%nat)
      by (subst k; unfold MAX_HISTORY in *; lia).
    assert (Hi2 : (k <= S i < MAX_HISTORY)%nat)
      by (subst k; unfold MAX_HISTORY in *; lia).
    apply H1, Qeqb_neq in Hi1. apply H2, Qeqb_neq in Hi2.
    rewrite Hi1, Hi2. reflexivity. }
  split; [exact E |]. split.
  - rewrite E, length_map, length_seq. reflexivity.
  - intros i a b. rewrite E. intros Ha Hb.
    apply map_lookup_Some in Ha, Hb.
    destruct Ha as (j & Hj & ->), Hb as (j' & Hj' & ->).
    apply lookup_seq in Hj, Hj'. destruct Hj as [-> _], Hj' as [-> _].
    unfold segment. cbn [lx1 lx2 ly1 ly2].
    replace (MAX_HISTORY - length vs + S i)%nat
      with (S (MAX_HISTORY - length vs + i)) by lia.
    split; [lia | reflexivity].
Qed.

Lemma chart_joins_neighbouring_readings_witness :
  length (drawGraph warm_history) = 1%nat.
Proof.
  apply (chart_joins_neighbouring_readings warm_history [21.5%Q; 22%Q]).
  split; [reflexivity |]. split; [cbn; unfold MAX_HISTORY; lia |].
  repeat constructor; unfold sentinel, Qeq; cbn; lia.
Defined.

(** ** Scaling of the chart *)





Lemma constrain_range (x lo hi : Z) : lo <= hi -> lo <= constrain x lo hi <= hi.
Proof.
  intros H. unfold constrain.
  destruct (Z.ltb_spec x lo); [lia |]. destruct (Z.ltb_spec hi x); lia.
Qed.


Lemma graphY_range (rng : Q * Q) (v : Q) : 112 <= graphY rng v <= 168.
Proof. unfold graphY. cbv zeta. apply constrain_range. lia. Qed.

(** X10: the chart stays inside the area that [drawGraph] clears before it
    draws, whatever the buffer holds, so no redraw leaves pixels of an
    older chart behind or writes on the frame.  Every segment spans one
    column of 5 pixels from left to right, and the last column used ends
    at x = 206: the 22 columns to the right of that are never drawn on. *)
Theorem chart_stays_in_cleared_area (h : list Q) :
  Forall in_frame (drawGraph h) /\
  Forall (fun l => lx2 l = lx1 l + 5 /\ lx2 l <= 206) (drawGraph h).
Proof.
  rewrite drawGraph_flat_map.
  assert (H : forall l,
            In l (flat_map
                    (fun i => if Qeq_bool (cell h i) 0 || Qeq_bool (cell h (S i)) 0
                              then [] else [segment h i])
                    (seq 0 (MAX_HISTORY - 1))) ->
            in_frame l /\ lx2 l = lx1 l + 5 /\ lx2 l <= 206).
  { intros l Hin. apply in_flat_map in Hin. destruct Hin as (i & Hi & Hl).
    apply in_seq in Hi.
    destruct (Qeq_bool (cell h i) 0 || Qeq_bool (cell h (S i)) 0); [destruct Hl |].
    destruct Hl as [<- | []].
    pose proof (graphY_range (graphRange h) (cell h i)) as H1.
    pose proof (graphY_range (graphRange h) (cell h (S i))) as H2.
    unfold in_frame, cleared, segment. cbn [lx1 lx2 ly1 ly2].
    unfold MAX_HISTORY in Hi. lia. }
  split; apply List.Forall_forall; intros l Hl; apply H in Hl; tauto.
Qed.


(** ** The forecast under constant pressure *)

Lemma decay_pos (n : nat) : (0 < decay n <= 1)%Q.
Proof.
  induction n as [|n IH]; cbn [decay]; [lra |]. destruct IH. split.
  - apply Qmult_lt_0_compat; [reflexivity | assumption].
  - lra.
Qed.




(** ** The forecast label in reachable states *)




(** ** When the LED bar is written *)



Section Leds.
Variable fmt : Q -> nat -> string.
Variable env : Env.







End Leds.


(** ** What the page shows after a read *)


